(** * Timer engine of the timers screen

    A shallow embedding of the timer logic of [TimersScreen]: the [Timer]
    record, the one-second tick that advances every running timer, the
    single-timer and category-wide action handlers, timer creation, the
    per-timer buttons with their [disabled] attributes, what is handed to
    storage, the grouping by category, the set of expanded categories and
    the rendering of the remaining time.

    Modelling conventions.
    - A JavaScript [number] is [Int z] or [NaN].  Every number the screen
      handles comes from [parseInt] and from subtracting 1, so it is an
      integer or NaN; integers are taken in the range where double
      arithmetic is exact, and the sign of zero is not tracked.
    - The optional field [halfwayAlertTriggered?: boolean] is an
      [option bool]; [None] is the absent field ([undefined]).
    - Side effects performed while the state is recomputed (the call of
      [handleTimerComplete], the [Alert.alert] pop-ups) are collected in a
      writer monad [Eff], in the order in which the code performs them.
    - [setTimers]/[saveTimers] receive the list a handler computes; a
      handler is modelled by that list.  Storage failures are only logged
      by the code and are not modelled; [stored] is the list last handed to
      [saveTimers], not its JSON text.
    - The object built by [groupTimersByCategory] is a finite map; the
      order in which its keys are enumerated is not modelled. *)

From Stdlib Require Import ZArith QArith String Ascii DecimalString DecimalPos Lia.
From stdpp Require Import base list strings gmap.

Local Open Scope string_scope.
Local Open Scope list_scope.
Local Open Scope Z_scope.

(** ** Numbers *)

Inductive number : Type :=
| Int (z : Z)
| NaN.

(** [a - b] *)
Definition num_sub (a b : number) : number :=
  match a, b with
  | Int x, Int y => Int (x - y)
  | _, _ => NaN
  end.

(** [a <= b]; false as soon as one side is NaN. *)
Definition num_leb (a b : number) : bool :=
  match a, b with
  | Int x, Int y => x <=? y
  | _, _ => false
  end.

(** [a <= b / 2].  The quotient need not be an integer, so the comparison
    is made over the rationals. *)
Definition num_leb_half (a b : number) : bool :=
  match a, b with
  | Int x, Int y => Qle_bool (inject_Z x) (Qdiv (inject_Z y) (inject_Z 2))
  | _, _ => false
  end.

(** ** parseInt(s, 10) *)

(** White space skipped in front of the number (the ASCII part of it). *)
Definition is_white_space (c : ascii) : bool :=
  let n := nat_of_ascii c in
  ((9 <=? n) && (n <=? 13) || (n =? 32))%nat.

Definition digit_of (c : ascii) : option Z :=
  let n := Z.of_nat (nat_of_ascii c) in
  if (48 <=? n) && (n <=? 57) then Some (n - 48) else None.

Fixpoint skip_white_space (s : string) : string :=
  match s with
  | String c s' => if is_white_space c then skip_white_space s' else s
  | EmptyString => s
  end.

(** The longest prefix of decimal digits, read as an integer; [acc] is
    [None] until the first digit has been seen. *)
Fixpoint parse_digits (s : string) (acc : option Z) : option Z :=
  match s with
  | String c s' =>
      match digit_of c with
      | Some d => parse_digits s' (Some (10 * default 0 acc + d))
      | None => acc
      end
  | EmptyString => acc
  end.

Definition parseInt (s : string) : number :=
  let s1 := skip_white_space s in
  let '(sign, s2) :=
    match s1 with
    | String "-" r => (-1, r)
    | String "+" r => (1, r)
    | _ => (1, s1)
    end in
  match parse_digits s2 None with
  | Some n => Int (sign * n)
  | None => NaN
  end.

(** ** The data model *)

Inductive Status : Type := idle | running | paused | completed.

Definition Status_eqb (a b : Status) : bool :=
  match a, b with
  | idle, idle | running, running | paused, paused | completed, completed => true
  | _, _ => false
  end.

Record Timer : Type := mkTimer {
  id : string;
  name : string;
  duration : number;
  remainingTime : number;
  category : string;
  status : Status;
  halfwayAlert : bool;
  halfwayAlertTriggered : option bool
}.

(** The value the code reads from the latch: [!timer.halfwayAlertTriggered]
    treats the absent field like [false]. *)
Definition triggered (timer : Timer) : bool :=
  default false (halfwayAlertTriggered timer).

(** Object spreads [{ ...timer, field: value }]. *)
Definition with_status (s : Status) (timer : Timer) : Timer :=
  mkTimer (id timer) (name timer) (duration timer) (remainingTime timer)
    (category timer) s (halfwayAlert timer) (halfwayAlertTriggered timer).

Definition with_remainingTime (r : number) (timer : Timer) : Timer :=
  mkTimer (id timer) (name timer) (duration timer) r
    (category timer) (status timer) (halfwayAlert timer)
    (halfwayAlertTriggered timer).

Definition with_halfwayAlertTriggered (b : bool) (timer : Timer) : Timer :=
  mkTimer (id timer) (name timer) (duration timer) (remainingTime timer)
    (category timer) (status timer) (halfwayAlert timer) (Some b).

Inductive Action : Type := start | pause | reset.

(** The form behind the "Add New Timer" dialog: every input is text. *)
Module NewTimer.
Record t : Type := mk {
  name : string;
  duration : string;
  category : string;
  halfwayAlert : bool
}.
End NewTimer.

Module HistoryEntry.
Record t : Type := mk {
  timerId : string;
  name : string;
  category : string;
  completedAt : string
}.
End HistoryEntry.

(** ** Effects *)

Inductive Event : Type :=
| Complete (timer : Timer)            (* handleTimerComplete(timer) *)
| Alert (title message : string).     (* Alert.alert(title, message) *)

Definition Eff (A : Type) : Type := (A * list Event)%type.

#[global] Instance Eff_ret : MRet Eff := fun A x => (x, []).
#[global] Instance Eff_bind : MBind Eff := fun A B f m =>
  let '(y, later) := f m.1 in (y, m.2 ++ later).

Definition emit (e : Event) : Eff unit := (tt, [e]).

(** ** The tick *)

Definition halfway_title : string := "Halfway Point!".
Definition halfway_message (timer : Timer) : string :=
  String.append (name timer) " is halfway complete!".

(** The callback of [currentTimers.map] inside the interval. *)
Definition tick_timer (timer : Timer) : Eff Timer :=
  if negb (Status_eqb (status timer) running) then mret timer
  else
    let newRemainingTime := num_sub (remainingTime timer) (Int 1) in
    if num_leb newRemainingTime (Int 0) then
      emit (Complete timer);;
      mret (with_status completed (with_remainingTime (Int 0) timer))
    else if halfwayAlert timer
            && negb (triggered timer)
            && num_leb_half newRemainingTime (duration timer) then
      emit (Alert halfway_title (halfway_message timer));;
      mret (with_halfwayAlertTriggered true
              (with_remainingTime newRemainingTime timer))
    else mret (with_remainingTime newRemainingTime timer).

Definition tick (currentTimers : list Timer) : Eff (list Timer) :=
  mapM tick_timer currentTimers.

(** ** Actions *)

(** The callback of [timers.map] in [handleTimerAction]. *)
Definition timer_action (timerId : string) (action : Action) (timer : Timer) : Timer :=
  if negb (String.eqb (id timer) timerId) then timer
  else
    match action with
    | start => with_status running timer
    | pause => with_status paused timer
    | reset =>
        with_halfwayAlertTriggered false
          (with_status idle (with_remainingTime (duration timer) timer))
    end.

Definition handleTimerAction (timerId : string) (action : Action)
    (timers : list Timer) : list Timer :=
  map (timer_action timerId action) timers.

(** The callback of [timers.map] in [handleCategoryAction]. *)
Definition category_action (cat : string) (action : Action) (timer : Timer) : Timer :=
  if negb (String.eqb (category timer) cat) then timer
  else
    match action with
    | start => with_status running timer
    | pause => with_status paused timer
    | reset =>
        with_halfwayAlertTriggered false
          (with_status idle (with_remainingTime (duration timer) timer))
    end.

Definition handleCategoryAction (cat : string) (action : Action)
    (timers : list Timer) : list Timer :=
  map (category_action cat action) timers.

(** ** Creation *)

(** [!s] on a string: only the empty string is falsy. *)
Definition string_falsy (s : string) : bool :=
  match s with
  | EmptyString => true
  | String _ _ => false
  end.

Definition error_title : string := "Error".
Definition error_message : string := "Please fill in all fields".

(** [now] is the reading of [Date.now()]; its decimal rendering is the id. *)
Definition handleAddTimer (now : Z) (newTimer : NewTimer.t)
    (timers : list Timer) : Eff (list Timer) :=
  if string_falsy (NewTimer.name newTimer)
     || string_falsy (NewTimer.duration newTimer)
     || string_falsy (NewTimer.category newTimer) then
    emit (Alert error_title error_message);;
    mret timers
  else
    let duration := parseInt (NewTimer.duration newTimer) in
    let timer :=
      {| id := NilZero.string_of_int (Z.to_int now);
         name := NewTimer.name newTimer;
         duration := duration;
         remainingTime := duration;
         category := NewTimer.category newTimer;
         status := idle;
         halfwayAlert := NewTimer.halfwayAlert newTimer;
         halfwayAlertTriggered := None |} in
    mret (timers ++ [timer]).

(** ** Completion history *)

(** [history] is what storage holds under the history key ([None] when the
    key is absent); the result is the list written back. *)
Definition handleTimerComplete (completedAt : string) (timer : Timer)
    (history : option (list HistoryEntry.t)) : list HistoryEntry.t :=
  let historyEntry :=
    {| HistoryEntry.timerId := id timer;
       HistoryEntry.name := name timer;
       HistoryEntry.category := category timer;
       HistoryEntry.completedAt := completedAt |} in
  default [] history ++ [historyEntry].

(** ** Runs of the screen *)

(** What can happen to the timer list: the interval fires, or one of the
    two handlers is called. *)
Inductive Op : Type :=
| Tick
| TimerAction (timerId : string) (action : Action)
| CategoryAction (cat : string) (action : Action).

Definition step (op : Op) (timers : list Timer) : Eff (list Timer) :=
  match op with
  | Tick => tick timers
  | TimerAction timerId action => mret (handleTimerAction timerId action timers)
  | CategoryAction cat action => mret (handleCategoryAction cat action timers)
  end.

Fixpoint run (ops : list Op) (timers : list Timer) : Eff (list Timer) :=
  match ops with
  | [] => mret timers
  | op :: ops' => timers' ← step op timers; run ops' timers'
  end.

(** The same, seen from one timer: what each [map] callback does to it. *)
Definition step_timer (op : Op) (timer : Timer) : Eff Timer :=
  match op with
  | Tick => tick_timer timer
  | TimerAction timerId action => mret (timer_action timerId action timer)
  | CategoryAction cat action => mret (category_action cat action timer)
  end.

Fixpoint run_timer (ops : list Op) (timer : Timer) : Eff Timer :=
  match ops with
  | [] => mret timer
  | op :: ops' => timer' ← step_timer op timer; run_timer ops' timer'
  end.

(** ** Observations on runs *)

Definition is_completion (e : Event) : bool :=
  match e with
  | Complete _ => true
  | Alert _ _ => false
  end.

Definition is_halfway_alert (e : Event) : bool :=
  match e with
  | Complete _ => false
  | Alert title _ => String.eqb title halfway_title
  end.

Definition count_events (p : Event -> bool) (events : list Event) : nat :=
  length (filter (fun e => p e = true) events).

Definition completions : list Event -> nat := count_events is_completion.
Definition halfway_alerts : list Event -> nat := count_events is_halfway_alert.

(** Does [op] target [timer] with [action]? *)
Definition targets (op : Op) (timer : Timer) : option Action :=
  match op with
  | Tick => None
  | TimerAction timerId action =>
      if String.eqb (id timer) timerId then Some action else None
  | CategoryAction cat action =>
      if String.eqb (category timer) cat then Some action else None
  end.

Definition resets (op : Op) (timer : Timer) : bool :=
  match targets op timer with
  | Some reset => true
  | _ => false
  end.

Definition starts (op : Op) (timer : Timer) : bool :=
  match targets op timer with
  | Some start => true
  | _ => false
  end.

(** The latch goes from unset to set between [timer] and [timer']. *)
Definition latch_rises (timer timer' : Timer) : bool :=
  negb (triggered timer) && triggered timer'.

(** How often the latch rises along a run. *)
Fixpoint latch_rise_count (ops : list Op) (timer : Timer) : nat :=
  match ops with
  | [] => 0%nat
  | op :: ops' =>
      let timer' := (step_timer op timer).1 in
      ((if latch_rises timer timer' then 1 else 0)
       + latch_rise_count ops' timer')%nat
  end.

Definition num_is_zero (n : number) : bool :=
  match n with
  | Int z => z =? 0
  | NaN => false
  end.

(** [remainingTime] becomes 0 between [timer] and [timer']. *)
Definition reaches_zero (timer timer' : Timer) : bool :=
  negb (num_is_zero (remainingTime timer))
  && num_is_zero (remainingTime timer').

(** How often [remainingTime] becomes 0 along a run. *)
Fixpoint run_to_zero_count (ops : list Op) (timer : Timer) : nat :=
  match ops with
  | [] => 0%nat
  | op :: ops' =>
      let timer' := (step_timer op timer).1 in
      ((if reaches_zero timer timer' then 1 else 0)
       + run_to_zero_count ops' timer')%nat
  end.

(** Every step of the run emits one completion event for the timer if its
    [remainingTime] becomes 0 in that step, and none otherwise. *)
Fixpoint completes_once_per_run_to_zero (ops : list Op) (timer : Timer) : bool :=
  match ops with
  | [] => true
  | op :: ops' =>
      let '(timer', events) := step_timer op timer in
      (completions events =? (if reaches_zero timer timer' then 1 else 0))%nat
      && completes_once_per_run_to_zero ops' timer'
  end.

(** No step of the run starts the timer while no time is left on it. *)
Fixpoint started_with_time_left (ops : list Op) (timer : Timer) : bool :=
  match ops with
  | [] => true
  | op :: ops' =>
      (if starts op timer then num_leb (Int 1) (remainingTime timer) else true)
      && started_with_time_left ops' (step_timer op timer).1
  end.

(** ** Well-formed timers *)

(** An integer duration > 0 and [0 <= remainingTime <= duration]. *)
Definition well_formed (timer : Timer) : Prop :=
  match duration timer, remainingTime timer with
  | Int d, Int r => 0 < d /\ 0 <= r <= d
  | _, _ => False
  end.

(** A running timer has at least one second left. *)
Definition time_left_when_running (timer : Timer) : Prop :=
  status timer = running -> num_leb (Int 1) (remainingTime timer) = true.

(** ** The action table of the specification *)

(** Modelled on the specification's action-to-transition table, to be
    compared with the two handlers. *)
Definition action_table (action : Action) (timer : Timer) : Timer :=
  match action with
  | start =>
      {| id := id timer; name := name timer; duration := duration timer;
         remainingTime := remainingTime timer; category := category timer;
         status := running;
         halfwayAlert := halfwayAlert timer;
         halfwayAlertTriggered := halfwayAlertTriggered timer |}
  | pause =>
      {| id := id timer; name := name timer; duration := duration timer;
         remainingTime := remainingTime timer; category := category timer;
         status := paused;
         halfwayAlert := halfwayAlert timer;
         halfwayAlertTriggered := halfwayAlertTriggered timer |}
  | reset =>
      {| id := id timer; name := name timer; duration := duration timer;
         remainingTime := duration timer; category := category timer;
         status := idle;
         halfwayAlert := halfwayAlert timer;
         halfwayAlertTriggered := Some false |}
  end.

(** ** The halfway condition *)

(** The test of the second [if] of the tick, for a timer that is running
    and does not complete in this tick. *)
Definition halfway_due (timer : Timer) : bool :=
  halfwayAlert timer
  && negb (triggered timer)
  && num_leb_half (num_sub (remainingTime timer) (Int 1)) (duration timer).

(** ** Statements that the code is checked against *)

(** A pause aimed at a timer that is not running leaves it as it is. *)
Definition pause_ignored_unless_running : Prop :=
  forall (timers : list Timer) (i : nat) (timer : Timer),
    timers !! i = Some timer ->
    status timer <> running ->
    handleTimerAction (id timer) pause timers !! i = Some timer
    /\ handleCategoryAction (category timer) pause timers !! i = Some timer.

(** The duration text parses to a positive integer. *)
Definition valid_duration (text : string) : Prop :=
  exists n : Z, parseInt text = Int n /\ 0 < n.

(** Creation is refused, and the list kept, when a field is missing or the
    duration is not a positive integer. *)
Definition create_rejects_invalid_input : Prop :=
  forall (now : Z) (newTimer : NewTimer.t) (timers : list Timer),
    NewTimer.name newTimer = ""
    \/ NewTimer.category newTimer = ""
    \/ ~ valid_duration (NewTimer.duration newTimer) ->
    handleAddTimer now newTimer timers
    = (timers, [Alert error_title error_message]).

(** Along every run from a well-formed timer, a completion event is emitted
    exactly in the steps in which [remainingTime] becomes 0. *)
Definition completion_exactly_at_zero : Prop :=
  forall (ops : list Op) (timer : Timer),
    well_formed timer ->
    status timer = idle ->
    completes_once_per_run_to_zero ops timer = true.

(** ** Sample timers *)

Definition egg : Timer :=
  {| id := "1700000000001"; name := "Egg";
     duration := Int 1; remainingTime := Int 1;
     category := "Cooking"; status := idle;
     halfwayAlert := false; halfwayAlertTriggered := None |}.

Definition pasta : Timer :=
  {| id := "1700000000002"; name := "Pasta";
     duration := Int 10; remainingTime := Int 10;
     category := "Cooking"; status := idle;
     halfwayAlert := true; halfwayAlertTriggered := None |}.

Definition reading : Timer :=
  {| id := "1700000000003"; name := "Reading";
     duration := Int 1800; remainingTime := Int 1800;
     category := "Study"; status := paused;
     halfwayAlert := true; halfwayAlertTriggered := None |}.

(** ** The per-timer buttons *)

(** The [disabled] attribute of the three buttons drawn for a timer. *)
Definition button_disabled (action : Action) (timer : Timer) : bool :=
  match action with
  | start =>
      Status_eqb (status timer) running || Status_eqb (status timer) completed
  | pause => negb (Status_eqb (status timer) running)
  | reset => false
  end.

(** A press on the [action] button of the timer drawn at position [i]: a
    disabled button does not call its handler. *)
Definition press (i : nat) (action : Action) (timers : list Timer) : list Timer :=
  match timers !! i with
  | Some timer =>
      if button_disabled action timer then timers
      else handleTimerAction (id timer) action timers
  | None => timers
  end.

(** ** The screen and what it stores *)

(** The timers on display and the list last handed to [saveTimers]
    ([None] as long as the storage key has not been written). *)
Record Screen : Type := mkScreen {
  shown : list Timer;
  stored : option (list Timer)
}.

(** What the user and the clock do to the screen. *)
Inductive Gesture : Type :=
| Wait
| Press (i : nat) (action : Action)
| PressCategory (cat : string) (action : Action)
| Submit (now : Z) (newTimer : NewTimer.t).

(** [setTimers(updatedTimers); saveTimers(updatedTimers)] *)
Definition commit (updatedTimers : list Timer) : Screen :=
  mkScreen updatedTimers (Some updatedTimers).

Definition perform (g : Gesture) (screen : Screen) : Eff Screen :=
  match g with
  | Wait =>
      timers' ← tick (shown screen);
      mret (mkScreen timers' (stored screen))
  | Press i action =>
      match shown screen !! i with
      | Some timer =>
          if button_disabled action timer then mret screen
          else mret (commit (handleTimerAction (id timer) action (shown screen)))
      | None => mret screen
      end
  | PressCategory cat action =>
      mret (commit (handleCategoryAction cat action (shown screen)))
  | Submit now newTimer =>
      let '(updatedTimers, events) := handleAddTimer now newTimer (shown screen) in
      match events with
      | [] => mret (commit updatedTimers)
      | _ => (screen, events)
      end
  end.

Fixpoint perform_all (gs : list Gesture) (screen : Screen) : Eff Screen :=
  match gs with
  | [] => mret screen
  | g :: gs' => screen' ← perform g screen; perform_all gs' screen'
  end.

(** [loadTimers], run when the screen is mounted: what the storage key
    holds replaces the empty initial list. *)
Definition loadTimers (storedTimers : option (list Timer)) : Screen :=
  mkScreen (default [] storedTimers) storedTimers.

(** Only the clock and the per-timer buttons are used. *)
Definition own_buttons_only (g : Gesture) : bool :=
  match g with
  | Wait | Press _ _ => true
  | PressCategory _ _ | Submit _ _ => false
  end.

(** The states of the timer life cycle: an idle timer has its full
    duration left, a running or paused one at least a second, a completed
    one nothing. *)
Definition consistent (timer : Timer) : Prop :=
  well_formed timer
  /\ match status timer with
     | idle => remainingTime timer = duration timer
     | running | paused => num_leb (Int 1) (remainingTime timer) = true
     | completed => remainingTime timer = Int 0
     end.

(** The edges of the life cycle. *)
Definition transition_allowed (from to : Status) : bool :=
  match from, to with
  | idle, running | paused, running | running, paused
  | running, completed | _, idle => true
  | _, _ => Status_eqb from to
  end.

(** How many timers see their [remainingTime] become 0 between two lists. *)
Fixpoint zero_reached (timers timers' : list Timer) : nat :=
  match timers, timers' with
  | timer :: rest, timer' :: rest' =>
      ((if reaches_zero timer timer' then 1 else 0) + zero_reached rest rest')%nat
  | _, _ => 0%nat
  end.

(** ** Grouping by category *)

(** [groups[category]] is looked up on an object literal, so a name that
    the object inherits is found although no group was stored under it;
    [inherited] tells these names. *)
Definition group_timer (inherited : string -> bool)
    (groups : option (gmap string (list Timer))) (timer : Timer)
    : option (gmap string (list Timer)) :=
  g ← groups;
  let category := category timer in
  match g !! category with
  | Some members => Some (<[category := members ++ [timer]]> g)
  | None =>
      (* the inherited value is truthy and has no [push]: a TypeError *)
      if inherited category then None
      else Some (<[category := [timer]]> g)
  end.

(** [None] is the exception thrown out of the reducer. *)
Definition groupTimersByCategory (inherited : string -> bool)
    (timers : list Timer) : option (gmap string (list Timer)) :=
  foldl (group_timer inherited) (Some ∅) timers.

(** The names an object literal inherits from [Object.prototype]. *)
Definition object_prototype_names : list string :=
  ["constructor"; "hasOwnProperty"; "isPrototypeOf"; "propertyIsEnumerable";
   "toLocaleString"; "toString"; "valueOf"; "__proto__";
   "__defineGetter__"; "__defineSetter__"; "__lookupGetter__";
   "__lookupSetter__"].

Definition on_object_prototype (key : string) : bool :=
  existsb (String.eqb key) object_prototype_names.

Definition members_of (cat : string) (timers : list Timer) : list Timer :=
  filter (fun timer => category timer = cat) timers.

(** The groups with [f] applied to every timer in them. *)
Definition map_groups (f : Timer -> Timer)
    (groups : option (gmap string (list Timer)))
    : option (gmap string (list Timer)) :=
  (fun g : gmap string (list Timer) => map f <$> g) <$> groups.

(** ** Expanded categories *)

Definition toggleCategory (category : string) (prev : gset string) : gset string :=
  if decide (category ∈ prev) then prev ∖ {[category]}
  else prev ∪ {[category]}.

(** ** Showing the remaining time *)

(** [String(n)] *)
Definition num_toString (n : number) : string :=
  match n with
  | Int z => NilZero.string_of_int (Z.to_int z)
  | NaN => "NaN"
  end.

(** [Math.floor(n / 60)] *)
Definition num_floor_div_60 (n : number) : number :=
  match n with
  | Int z => Int (z / 60)
  | NaN => NaN
  end.

(** [n % 60]: the remainder takes the sign of [n]. *)
Definition num_rem_60 (n : number) : number :=
  match n with
  | Int z => Int (Z.rem z 60)
  | NaN => NaN
  end.

Fixpoint repeat_char (c : ascii) (n : nat) (s : string) : string :=
  match n with
  | O => s
  | S n' => String c (repeat_char c n' s)
  end.

(** [s.padStart(targetLength, c)] for a one-character filler. *)
Definition padStart (targetLength : nat) (c : ascii) (s : string) : string :=
  repeat_char c (targetLength - String.length s) s.

Definition formatTime (seconds : number) : string :=
  let minutes := num_floor_div_60 seconds in
  let remainingSeconds := num_rem_60 seconds in
  String.append (num_toString minutes)
    (String ":" (padStart 2 "0" (num_toString remainingSeconds))).


(** Every gesture of the sequence emits as many completion events as
    timers see their [remainingTime] become 0 in it. *)
Fixpoint each_completion_at_zero (gs : list Gesture) (screen : Screen) : bool :=
  match gs with
  | [] => true
  | g :: gs' =>
      let '(screen', events) := perform g screen in
      (completions events =? zero_reached (shown screen) (shown screen'))%nat
      && each_completion_at_zero gs' screen'
  end.

(** * Properties *)

(** ** Numbers *)


Lemma num_leb_Int (x y : Z) : num_leb (Int x) (Int y) = true <-> x <= y.
Proof. apply Z.leb_le. Qed.

Lemma Status_eqb_eq (a b : Status) : Status_eqb a b = true <-> a = b.
Proof. destruct a, b; simpl; split; congruence. Qed.

Lemma Status_eqb_running (s : Status) :
  Status_eqb s running = false <-> s <> running.
Proof. destruct s; simpl; split; congruence. Qed.

(** ** Effects of a [map] with side effects *)

Lemma Eff_bind_fst {A B : Type} (f : A -> Eff B) (m : Eff A) :
  (m ≫= f).1 = (f m.1).1.
Proof. unfold mbind, Eff_bind. now destruct (f m.1). Qed.

Lemma Eff_bind_snd {A B : Type} (f : A -> Eff B) (m : Eff A) :
  (m ≫= f).2 = m.2 ++ (f m.1).2.
Proof. unfold mbind, Eff_bind. now destruct (f m.1). Qed.

Lemma mapM_Eff_cons {A B : Type} (f : A -> Eff B) (x : A) (l : list A) :
  mapM f (x :: l) = f x ≫= fun y => mapM f l ≫= fun k => mret (y :: k).
Proof. reflexivity. Qed.

Lemma mapM_Eff_fst {A B : Type} (f : A -> Eff B) (l : list A) :
  (mapM f l).1 = map (fun x => (f x).1) l.
Proof.
  induction l as [|x l IH]; [reflexivity|].
  rewrite mapM_Eff_cons, !Eff_bind_fst. simpl. now rewrite IH.
Qed.

Lemma mapM_Eff_snd {A B : Type} (f : A -> Eff B) (l : list A) :
  (mapM f l).2 = concat (map (fun x => (f x).2) l).
Proof.
  induction l as [|x l IH]; [reflexivity|].
  rewrite mapM_Eff_cons, !Eff_bind_snd. simpl. now rewrite IH, app_nil_r.
Qed.

Lemma step_fst (op : Op) (timers : list Timer) :
  (step op timers).1 = map (fun timer => (step_timer op timer).1) timers.
Proof. destruct op; simpl; [apply mapM_Eff_fst|reflexivity|reflexivity]. Qed.

Lemma step_snd (op : Op) (timers : list Timer) :
  (step op timers).2 = concat (map (fun timer => (step_timer op timer).2) timers).
Proof.
  destruct op; simpl; [apply mapM_Eff_snd| |];
    induction timers; simpl; congruence.
Qed.

Lemma run_cons (op : Op) (ops : list Op) (timers : list Timer) :
  run (op :: ops) timers = step op timers ≫= run ops.
Proof. reflexivity. Qed.

Lemma run_timer_cons (op : Op) (ops : list Op) (timer : Timer) :
  run_timer (op :: ops) timer = step_timer op timer ≫= run_timer ops.
Proof. reflexivity. Qed.

(** A run of the whole list is, timer by timer, the run of that timer. *)
Lemma run_fst (ops : list Op) (timers : list Timer) :
  (run ops timers).1 = map (fun timer => (run_timer ops timer).1) timers.
Proof.
  revert timers. induction ops as [|op ops IH]; intros timers.
  - simpl. now rewrite map_id.
  - rewrite run_cons, Eff_bind_fst, IH, step_fst, map_map.
    apply map_ext. intros timer. now rewrite run_timer_cons, Eff_bind_fst.
Qed.

Lemma run_lookup (ops : list Op) (timers : list Timer) (i : nat) :
  (run ops timers).1 !! i = (fun timer => (run_timer ops timer).1) <$> timers !! i.
Proof. rewrite run_fst. apply list_lookup_fmap. Qed.

Lemma count_events_app (p : Event -> bool) (e1 e2 : list Event) :
  count_events p (e1 ++ e2) = (count_events p e1 + count_events p e2)%nat.
Proof. unfold count_events. now rewrite filter_app, length_app. Qed.

Lemma count_events_concat (p : Event -> bool) (ll : list (list Event)) :
  count_events p (concat ll) = sum_list (map (count_events p) ll).
Proof.
  induction ll as [|l ll IH]; [reflexivity|].
  simpl. now rewrite count_events_app, IH.
Qed.

(** The events of a run of the list are those of its timers' runs. *)
Lemma run_count_events (p : Event -> bool) (ops : list Op) (timers : list Timer) :
  count_events p (run ops timers).2
  = sum_list (map (fun timer => count_events p (run_timer ops timer).2) timers).
Proof.
  revert timers. induction ops as [|op ops IH]; intros timers.
  - simpl. induction timers; simpl; [reflexivity|congruence].
  - rewrite run_cons, Eff_bind_snd, count_events_app, IH, step_fst, step_snd,
      count_events_concat.
    clear. induction timers as [|timer timers IHt]; [reflexivity|].
    cbn [map concat sum_list sum_list_with].
    rewrite run_timer_cons, Eff_bind_snd, count_events_app.
    rewrite <- IHt. unfold Datatypes.id. lia.
Qed.

(** ** The handlers against the action table *)

Lemma timer_action_table (timerId : string) (action : Action) (timer : Timer) :
  timer_action timerId action timer
  = if String.eqb (id timer) timerId then action_table action timer else timer.
Proof.
  unfold timer_action. destruct (String.eqb (id timer) timerId); [|reflexivity].
  now destruct action.
Qed.

Lemma category_action_table (cat : string) (action : Action) (timer : Timer) :
  category_action cat action timer
  = if String.eqb (category timer) cat then action_table action timer else timer.
Proof.
  unfold category_action. destruct (String.eqb (category timer) cat); [|reflexivity].
  now destruct action.
Qed.

Lemma handleTimerAction_lookup (timerId : string) (action : Action)
    (timers : list Timer) (i : nat) :
  handleTimerAction timerId action timers !! i
  = timer_action timerId action <$> timers !! i.
Proof. apply list_lookup_fmap. Qed.

Lemma handleCategoryAction_lookup (cat : string) (action : Action)
    (timers : list Timer) (i : nat) :
  handleCategoryAction cat action timers !! i
  = category_action cat action <$> timers !! i.
Proof. apply list_lookup_fmap. Qed.

Lemma action_table_id (action : Action) (timer : Timer) :
  id (action_table action timer) = id timer.
Proof. now destruct action. Qed.

Lemma action_table_category (action : Action) (timer : Timer) :
  category (action_table action timer) = category timer.
Proof. now destruct action. Qed.

Lemma action_table_duration (action : Action) (timer : Timer) :
  duration (action_table action timer) = duration timer.
Proof. now destruct action. Qed.

Lemma action_table_idempotent (action : Action) (timer : Timer) :
  action_table action (action_table action timer) = action_table action timer.
Proof. now destruct action. Qed.

(** C3: whatever the status of a targeted timer, both handlers give it the
    entry of the action table: [start] makes it running and keeps every
    other field (so a completed timer keeps its [remainingTime] and its
    latch), [pause] makes it paused, [reset] restores the full duration,
    makes it idle and clears the latch. *)
Theorem handlers_apply_action_table
    (timers : list Timer) (i : nat) (timer : Timer) (action : Action) :
  timers !! i = Some timer ->
  handleTimerAction (id timer) action timers !! i
    = Some (action_table action timer)
  /\ handleCategoryAction (category timer) action timers !! i
    = Some (action_table action timer)
  /\ match action with
     | start =>
         status (action_table action timer) = running
         /\ remainingTime (action_table action timer) = remainingTime timer
         /\ halfwayAlertTriggered (action_table action timer)
            = halfwayAlertTriggered timer
     | pause => status (action_table action timer) = paused
     | reset =>
         remainingTime (action_table action timer) = duration timer
         /\ status (action_table action timer) = idle
         /\ halfwayAlertTriggered (action_table action timer) = Some false
     end.
Proof.
  intros Hi.
  rewrite handleTimerAction_lookup, handleCategoryAction_lookup, Hi. simpl.
  rewrite timer_action_table, category_action_table, !String.eqb_refl.
  destruct action; auto.
Qed.

Lemma handlers_apply_action_table_witness :
  let done := with_status completed (with_remainingTime (Int 0) egg) in
  handleTimerAction (id done) start [pasta; done] !! 1%nat
    = Some (action_table start done)
  /\ status (action_table start done) = running
  /\ remainingTime (action_table start done) = Int 0.
Proof.
  intros done.
  destruct (handlers_apply_action_table [pasta; done] 1 done start eq_refl)
    as (H1 & _ & H2 & H3 & _).
  auto.
Defined.

(** C8: a category action gives every member of the category its entry of
    the action table and leaves every other timer as it was, field for
    field; the list keeps its length and its order. *)
Theorem category_action_frame
    (cat : string) (action : Action) (timers : list Timer)
    (i : nat) (timer : Timer) :
  timers !! i = Some timer ->
  length (handleCategoryAction cat action timers) = length timers
  /\ (category timer = cat ->
      handleCategoryAction cat action timers !! i
      = Some (action_table action timer))
  /\ (category timer <> cat ->
      handleCategoryAction cat action timers !! i = Some timer).
Proof.
  intros Hi. split; [apply length_map|].
  rewrite handleCategoryAction_lookup, Hi. simpl.
  rewrite category_action_table.
  split; intros Hc.
  - apply String.eqb_eq in Hc. now rewrite Hc.
  - apply String.eqb_neq in Hc. now rewrite Hc.
Qed.

Lemma category_action_frame_witness :
  handleCategoryAction "Cooking" start [egg; reading; pasta] !! 1%nat
  = Some reading
  /\ handleCategoryAction "Cooking" start [egg; reading; pasta] !! 2%nat
  = Some (action_table start pasta).
Proof.
  split.
  - apply (category_action_frame "Cooking" start [egg; reading; pasta] 1 reading);
      [reflexivity|discriminate].
  - apply (category_action_frame "Cooking" start [egg; reading; pasta] 2 pasta);
      reflexivity.
Defined.

Example category_start_scenario :
  map status (handleCategoryAction "Cooking" start [egg; reading; pasta])
  = [running; paused; running].
Proof. reflexivity. Qed.

(** C10: each action, aimed at a timer id or at a category, gives the same
    list when it is applied twice as when it is applied once. *)
Theorem actions_idempotent
    (target : string) (action : Action) (timers : list Timer) :
  handleTimerAction target action (handleTimerAction target action timers)
  = handleTimerAction target action timers
  /\ handleCategoryAction target action (handleCategoryAction target action timers)
  = handleCategoryAction target action timers.
Proof.
  unfold handleTimerAction, handleCategoryAction. rewrite !map_map.
  split; apply map_ext; intros timer.
  - rewrite !timer_action_table.
    destruct (String.eqb (id timer) target) eqn:E; [|now rewrite E].
    now rewrite action_table_id, E, action_table_idempotent.
  - rewrite !category_action_table.
    destruct (String.eqb (category timer) target) eqn:E; [|now rewrite E].
    now rewrite action_table_category, E, action_table_idempotent.
Qed.

(** C7, as stated, fails: a category pause (and the handler called with
    the timer's id) turns an idle timer into a paused one. *)
Lemma pause_changes_idle_timer : ~ pause_ignored_unless_running.
Proof.
  intros H.
  destruct (H [egg] 0%nat egg eq_refl) as [H1 _]; [discriminate|].
  discriminate H1.
Qed.

Example pause_idle_timer_by_category :
  handleCategoryAction "Cooking" pause [egg] = [with_status paused egg].
Proof. reflexivity. Qed.

(** C7, amended: a pause aimed at a timer, by its id or by its category,
    sets its status to paused whatever the status was and changes no
    other field; the timer is left as it was only when it was paused
    already. *)
Theorem pause_sets_paused (timers : list Timer) (i : nat) (timer : Timer) :
  timers !! i = Some timer ->
  handleTimerAction (id timer) pause timers !! i
    = Some (with_status paused timer)
  /\ handleCategoryAction (category timer) pause timers !! i
    = Some (with_status paused timer)
  /\ (with_status paused timer = timer <-> status timer = paused).
Proof.
  intros Hi.
  rewrite handleTimerAction_lookup, handleCategoryAction_lookup, Hi. simpl.
  unfold timer_action, category_action. rewrite !String.eqb_refl. simpl.
  repeat split; trivial.
  - intros E. now rewrite <- E.
  - intros E. destruct timer; simpl in *. now subst.
Qed.

Lemma pause_sets_paused_witness :
  handleCategoryAction (category egg) pause [egg] !! 0%nat
  = Some (with_status paused egg).
Proof. apply (pause_sets_paused [egg] 0 egg eq_refl). Defined.

(** ** Creation *)

Lemma string_falsy_empty (s : string) : string_falsy s = true <-> s = "".
Proof. destruct s; simpl; split; congruence. Qed.

Example parseInt_30 : parseInt "30" = Int 30.
Proof. reflexivity. Qed.

Example parseInt_zero : parseInt "0" = Int 0.
Proof. reflexivity. Qed.

Example parseInt_negative : parseInt "-5" = Int (-5).
Proof. reflexivity. Qed.

Example parseInt_letters : parseInt "abc" = NaN.
Proof. reflexivity. Qed.

Example parseInt_prefix : parseInt " 12px" = Int 12.
Proof. reflexivity. Qed.

(** C5, as stated, fails: with a name and a category, the duration text
    "0" is accepted although it does not parse to a positive integer, and
    a timer is added. *)
Lemma create_accepts_zero_duration : ~ create_rejects_invalid_input.
Proof.
  intros H.
  specialize (H 1700000000004 (NewTimer.mk "Tea" "0" "Drinks" false) []).
  simpl in H.
  assert (Hbad : ~ valid_duration "0").
  { intros (n & Hn & Hpos). vm_compute in Hn. injection Hn as <-. lia. }
  specialize (H (or_intror (or_intror Hbad))).
  vm_compute in H. discriminate H.
Qed.

Example create_with_zero_duration :
  handleAddTimer 1700000000004 (NewTimer.mk "Tea" "0" "Drinks" false) []
  = ([ {| id := "1700000000004"; name := "Tea";
          duration := Int 0; remainingTime := Int 0;
          category := "Drinks"; status := idle;
          halfwayAlert := false; halfwayAlertTriggered := None |} ], []).
Proof. reflexivity. Qed.

Example create_with_letters_duration :
  handleAddTimer 1700000000004 (NewTimer.mk "Tea" "abc" "Drinks" false) []
  = ([ {| id := "1700000000004"; name := "Tea";
          duration := NaN; remainingTime := NaN;
          category := "Drinks"; status := idle;
          halfwayAlert := false; halfwayAlertTriggered := None |} ], []).
Proof. reflexivity. Qed.

(** A form with its three texts filled in is accepted, whatever the
    duration text parses to. *)
Lemma create_accepts_filled_form
    (now : Z) (newTimer : NewTimer.t) (timers : list Timer) :
  NewTimer.name newTimer <> "" ->
  NewTimer.duration newTimer <> "" ->
  NewTimer.category newTimer <> "" ->
  exists timer : Timer,
    handleAddTimer now newTimer timers = (timers ++ [timer], [])
    /\ duration timer = parseInt (NewTimer.duration newTimer).
Proof.
  intros Hn Hd Hc. unfold handleAddTimer.
  destruct (string_falsy (NewTimer.name newTimer)) eqn:En;
    [apply string_falsy_empty in En; contradiction|].
  destruct (string_falsy (NewTimer.duration newTimer)) eqn:Ed;
    [apply string_falsy_empty in Ed; contradiction|].
  destruct (string_falsy (NewTimer.category newTimer)) eqn:Ec;
    [apply string_falsy_empty in Ec; contradiction|].
  simpl. eexists. split; reflexivity.
Qed.

(** C5, amended: creation is refused with the error alert, and the list of
    timers is kept as it is, whenever the name, the duration text or the
    category is missing (empty); so the form with an empty name and
    duration "30" is refused and adds no timer. *)
Theorem create_rejects_missing_field
    (now : Z) (newTimer : NewTimer.t) (timers : list Timer) :
  NewTimer.name newTimer = ""
  \/ NewTimer.duration newTimer = ""
  \/ NewTimer.category newTimer = "" ->
  handleAddTimer now newTimer timers
  = (timers, [Alert error_title error_message]).
Proof.
  intros H. unfold handleAddTimer.
  destruct H as [H | [H | H]]; apply string_falsy_empty in H; rewrite H;
    rewrite ?orb_true_r; reflexivity.
Qed.

Lemma create_rejects_missing_field_witness :
  handleAddTimer 1700000000004 (NewTimer.mk "" "30" "X" false) [egg]
  = ([egg], [Alert error_title error_message]).
Proof.
  apply (create_rejects_missing_field 1700000000004
           (NewTimer.mk "" "30" "X" false) [egg]).
  left. reflexivity.
Defined.

(** C9: a timer that creation accepts is appended with status idle, with
    [remainingTime] equal to its duration, and with the latch unset: the
    field is absent, which the tick reads as false. *)
Theorem created_timer_initial_state
    (now : Z) (newTimer : NewTimer.t) (timers timers' : list Timer) :
  handleAddTimer now newTimer timers = (timers', []) ->
  exists timer : Timer,
    timers' = timers ++ [timer]
    /\ status timer = idle
    /\ remainingTime timer = duration timer
    /\ halfwayAlertTriggered timer = None
    /\ triggered timer = false.
Proof.
  unfold handleAddTimer.
  destruct (string_falsy (NewTimer.name newTimer)
            || string_falsy (NewTimer.duration newTimer)
            || string_falsy (NewTimer.category newTimer)); simpl.
  - discriminate.
  - intros [= <-]. eexists. split; [reflexivity|]. simpl. auto.
Qed.

Lemma created_timer_initial_state_witness :
  exists timer : Timer,
    [egg; timer] = [egg] ++ [timer]
    /\ status timer = idle
    /\ remainingTime timer = duration timer
    /\ halfwayAlertTriggered timer = None
    /\ triggered timer = false.
Proof.
  destruct (created_timer_initial_state 1700000000004
              (NewTimer.mk "Tea" "120" "Drinks" true) [egg]
              ([egg] ++ [ {| id := "1700000000004"; name := "Tea";
                             duration := Int 120; remainingTime := Int 120;
                             category := "Drinks"; status := idle;
                             halfwayAlert := true;
                             halfwayAlertTriggered := None |} ])
              eq_refl) as (timer & Ht & Hrest).
  exists timer. split; [|exact Hrest].
  apply app_inj_tail in Ht. destruct Ht as [_ <-]. reflexivity.
Defined.

(** ** The tick *)

Lemma tick_lookup (timers : list Timer) (i : nat) :
  (tick timers).1 !! i = (fun timer => (tick_timer timer).1) <$> timers !! i.
Proof. unfold tick. rewrite mapM_Eff_fst. apply list_lookup_fmap. Qed.

Lemma tick_timer_not_running (timer : Timer) :
  status timer <> running -> tick_timer timer = (timer, []).
Proof.
  intros H. apply Status_eqb_running in H. unfold tick_timer. now rewrite H.
Qed.

(** The three outcomes of the tick on a running timer. *)
Lemma tick_timer_running (timer : Timer) :
  status timer = running ->
  tick_timer timer
  = let newRemainingTime := num_sub (remainingTime timer) (Int 1) in
    if num_leb newRemainingTime (Int 0) then
      (with_status completed (with_remainingTime (Int 0) timer),
       [Complete timer])
    else if halfway_due timer then
      (with_halfwayAlertTriggered true
         (with_remainingTime newRemainingTime timer),
       [Alert halfway_title (halfway_message timer)])
    else (with_remainingTime newRemainingTime timer, []).
Proof.
  intros H. unfold tick_timer, halfway_due. rewrite H. simpl.
  destruct (num_leb _ (Int 0)); [reflexivity|].
  destruct (_ && _ && _); reflexivity.
Qed.

(** C1: on every tick a running timer gets [newRemaining = remainingTime - 1];
    if that is <= 0 the timer gets [remainingTime] 0 and status completed
    and one completion event is emitted; otherwise, when the halfway branch
    does not apply, [remainingTime] becomes [newRemaining] and nothing else
    changes; no tick emits both a completion event and a halfway alert for
    the timer, and completion wins when [newRemaining <= 0]. *)
Theorem tick_running_timer (timers : list Timer) (i : nat) (timer : Timer) :
  timers !! i = Some timer ->
  status timer = running ->
  let newRemaining := num_sub (remainingTime timer) (Int 1) in
  let timer' := (tick_timer timer).1 in
  let events := (tick_timer timer).2 in
  (tick timers).1 !! i = Some timer'
  /\ (num_leb newRemaining (Int 0) = true ->
      remainingTime timer' = Int 0
      /\ status timer' = completed
      /\ events = [Complete timer])
  /\ (num_leb newRemaining (Int 0) = false ->
      halfway_due timer = false ->
      timer' = with_remainingTime newRemaining timer /\ events = [])
  /\ (num_leb newRemaining (Int 0) = false ->
      halfway_due timer = true ->
      timer' = with_halfwayAlertTriggered true
                 (with_remainingTime newRemaining timer)
      /\ events = [Alert halfway_title (halfway_message timer)])
  /\ (completions events = 0 \/ halfway_alerts events = 0)%nat.
Proof.
  intros Hi Hrun newRemaining timer' events.
  split; [rewrite tick_lookup, Hi; reflexivity|].
  subst timer' events. rewrite (tick_timer_running timer Hrun).
  fold newRemaining. cbv zeta.
  destruct (num_leb newRemaining (Int 0)).
  - simpl. repeat split; try discriminate; auto.
  - destruct (halfway_due timer); simpl; repeat split; try discriminate; auto.
Qed.

Lemma tick_running_timer_witness :
  let last := with_status running (with_remainingTime (Int 1) pasta) in
  (tick [egg; last]).1 !! 1%nat
  = Some (with_status completed (with_remainingTime (Int 0) last))
  /\ (tick_timer last).2 = [Complete last].
Proof.
  intros last.
  destruct (tick_running_timer [egg; last] 1 last eq_refl eq_refl)
    as (H1 & H2 & _).
  destruct (H2 eq_refl) as (_ & _ & H3).
  split; [exact H1|exact H3].
Defined.

Example tick_with_NaN_remaining :
  tick_timer (with_status running (with_remainingTime NaN egg))
  = (with_status running (with_remainingTime NaN egg), []).
Proof. reflexivity. Qed.

(** ** The bound on [remainingTime] *)

Lemma well_formed_inv (timer : Timer) :
  well_formed timer ->
  exists d r : Z,
    duration timer = Int d /\ remainingTime timer = Int r
    /\ 0 < d /\ 0 <= r <= d.
Proof.
  unfold well_formed.
  destruct (duration timer) as [d|]; [|contradiction].
  destruct (remainingTime timer) as [r|]; [|contradiction].
  intros H. exists d, r. auto.
Qed.

Lemma tick_timer_duration (timer : Timer) :
  duration (tick_timer timer).1 = duration timer.
Proof.
  unfold tick_timer.
  destruct (negb _); [reflexivity|]. cbv zeta.
  destruct (num_leb _ _); [reflexivity|].
  destruct (_ && _ && _); reflexivity.
Qed.

Lemma step_timer_duration (op : Op) (timer : Timer) :
  duration (step_timer op timer).1 = duration timer.
Proof.
  destruct op as [|timerId action|cat action]; simpl.
  - apply tick_timer_duration.
  - rewrite timer_action_table.
    destruct (String.eqb _ _); [apply action_table_duration|reflexivity].
  - rewrite category_action_table.
    destruct (String.eqb _ _); [apply action_table_duration|reflexivity].
Qed.

Lemma action_table_well_formed (action : Action) (timer : Timer) :
  well_formed timer -> well_formed (action_table action timer).
Proof.
  intros H. destruct (well_formed_inv timer H) as (d & r & Hd & Hr & Hpos & Hb).
  unfold well_formed. destruct action; simpl; rewrite Hd, ?Hr; lia.
Qed.

Lemma tick_timer_well_formed (timer : Timer) :
  well_formed timer -> well_formed (tick_timer timer).1.
Proof.
  intros H. destruct (well_formed_inv timer H) as (d & r & Hd & Hr & Hpos & Hb).
  unfold tick_timer.
  destruct (negb _); [exact H|]. cbv zeta.
  rewrite Hr. simpl num_sub.
  destruct (num_leb (Int (r - 1)) (Int 0)) eqn:E.
  - unfold well_formed. simpl. rewrite Hd. lia.
  - assert (0 < r - 1).
    { destruct (Z.leb_spec (r - 1) 0) as [Hle|Hgt]; [|exact Hgt].
      apply num_leb_Int in Hle. congruence. }
    destruct (_ && _ && _); unfold well_formed; simpl; rewrite Hd; lia.
Qed.

Lemma step_timer_well_formed (op : Op) (timer : Timer) :
  well_formed timer -> well_formed (step_timer op timer).1.
Proof.
  intros H. destruct op as [|timerId action|cat action]; simpl.
  - now apply tick_timer_well_formed.
  - rewrite timer_action_table.
    destruct (String.eqb _ _); [now apply action_table_well_formed|exact H].
  - rewrite category_action_table.
    destruct (String.eqb _ _); [now apply action_table_well_formed|exact H].
Qed.

Lemma run_timer_well_formed (ops : list Op) (timer : Timer) :
  well_formed timer ->
  well_formed (run_timer ops timer).1
  /\ duration (run_timer ops timer).1 = duration timer.
Proof.
  revert timer. induction ops as [|op ops IH]; intros timer H.
  - split; [exact H|reflexivity].
  - rewrite run_timer_cons, Eff_bind_fst.
    destruct (IH _ (step_timer_well_formed op timer H)) as [Hw Hd].
    split; [exact Hw|]. now rewrite Hd, step_timer_duration.
Qed.

(** C4: a timer with an integer duration > 0 and
    [0 <= remainingTime <= duration] keeps its duration and that bound
    through every tick and every start, pause or reset, whether the action
    is aimed at one timer or at a category, hence through every run of
    them. *)
Theorem remaining_time_bound_preserved
    (ops : list Op) (timers : list Timer) (i : nat) (timer : Timer) :
  timers !! i = Some timer ->
  well_formed timer ->
  exists timer' : Timer,
    (run ops timers).1 !! i = Some timer'
    /\ duration timer' = duration timer
    /\ well_formed timer'.
Proof.
  intros Hi Hw. exists (run_timer ops timer).1.
  rewrite run_lookup, Hi.
  destruct (run_timer_well_formed ops timer Hw) as [Hw' Hd].
  auto.
Qed.

Lemma remaining_time_bound_preserved_witness :
  exists timer' : Timer,
    (run [CategoryAction "Cooking" start; Tick; Tick;
          TimerAction "1700000000002" pause; Tick;
          CategoryAction "Cooking" reset] [egg; pasta]).1 !! 1%nat
    = Some timer'
    /\ duration timer' = duration pasta
    /\ well_formed timer'.
Proof.
  apply (remaining_time_bound_preserved _ [egg; pasta] 1 pasta eq_refl).
  unfold well_formed. simpl. lia.
Defined.

(** ** The halfway latch *)

Lemma tick_timer_id (timer : Timer) : id (tick_timer timer).1 = id timer.
Proof.
  unfold tick_timer.
  destruct (negb _); [reflexivity|]. cbv zeta.
  destruct (num_leb _ _); [reflexivity|].
  destruct (_ && _ && _); reflexivity.
Qed.

Lemma tick_timer_category (timer : Timer) :
  category (tick_timer timer).1 = category timer.
Proof.
  unfold tick_timer.
  destruct (negb _); [reflexivity|]. cbv zeta.
  destruct (num_leb _ _); [reflexivity|].
  destruct (_ && _ && _); reflexivity.
Qed.

Lemma step_timer_id (op : Op) (timer : Timer) :
  id (step_timer op timer).1 = id timer.
Proof.
  destruct op as [|timerId action|cat action]; simpl.
  - apply tick_timer_id.
  - rewrite timer_action_table.
    destruct (String.eqb _ _); [apply action_table_id|reflexivity].
  - rewrite category_action_table.
    destruct (String.eqb _ _); [apply action_table_id|reflexivity].
Qed.

Lemma step_timer_category (op : Op) (timer : Timer) :
  category (step_timer op timer).1 = category timer.
Proof.
  destruct op as [|timerId action|cat action]; simpl.
  - apply tick_timer_category.
  - rewrite timer_action_table.
    destruct (String.eqb _ _); [apply action_table_category|reflexivity].
  - rewrite category_action_table.
    destruct (String.eqb _ _); [apply action_table_category|reflexivity].
Qed.

(** Whether an operation targets a timer does not change along a run. *)
Lemma targets_step_timer (op op' : Op) (timer : Timer) :
  targets op (step_timer op' timer).1 = targets op timer.
Proof.
  destruct op; simpl; [reflexivity| |].
  - now rewrite step_timer_id.
  - now rewrite step_timer_category.
Qed.

(** A handler call, seen from one timer, in terms of [targets]. *)
Lemma step_timer_targets (op : Op) (timer : Timer) :
  op <> Tick ->
  step_timer op timer
  = (match targets op timer with
     | Some action => action_table action timer
     | None => timer
     end, []).
Proof.
  destruct op as [|timerId action|cat action]; intros H; simpl.
  - contradiction.
  - rewrite timer_action_table. now destruct (String.eqb _ _).
  - rewrite category_action_table. now destruct (String.eqb _ _).
Qed.

Lemma tick_timer_cases (timer : Timer) :
  tick_timer timer = (timer, []) /\ status timer <> running
  \/ status timer = running.
Proof.
  destruct (status timer) eqn:E; try (right; reflexivity);
    left; (split; [apply tick_timer_not_running|]); congruence.
Qed.

(** The latch rises only in the halfway branch of a tick. *)
Lemma latch_rises_only_at_halfway (op : Op) (timer : Timer) :
  latch_rises timer (step_timer op timer).1 = true ->
  op = Tick
  /\ halfwayAlert timer = true
  /\ status timer = running
  /\ remainingTime (step_timer op timer).1 = num_sub (remainingTime timer) (Int 1)
  /\ num_leb_half (remainingTime (step_timer op timer).1) (duration timer) = true.
Proof.
  unfold latch_rises.
  destruct op as [|timerId action|cat action].
  - simpl. destruct (tick_timer_cases timer) as [[E _]|Hrun].
    + rewrite E. simpl. destruct (triggered timer); discriminate.
    + rewrite (tick_timer_running timer Hrun). cbv zeta.
      destruct (num_leb _ (Int 0)).
      * simpl. unfold triggered. simpl.
        destruct (default false (halfwayAlertTriggered timer)); discriminate.
      * destruct (halfway_due timer) eqn:Hdue.
        -- intros _. unfold halfway_due in Hdue.
           apply andb_prop in Hdue as [Hdue Hhalf].
           apply andb_prop in Hdue as [Hen _].
           simpl. auto.
        -- simpl. unfold triggered. simpl.
           destruct (default false (halfwayAlertTriggered timer)); discriminate.
  - rewrite step_timer_targets by discriminate.
    destruct (targets _ timer) as [[]|]; unfold triggered; simpl;
      destruct (default false (halfwayAlertTriggered timer)); discriminate.
  - rewrite step_timer_targets by discriminate.
    destruct (targets _ timer) as [[]|]; unfold triggered; simpl;
      destruct (default false (halfwayAlertTriggered timer)); discriminate.
Qed.

(** A step emits one halfway alert if the latch rises in it, none otherwise. *)
Lemma halfway_alert_iff_latch_rises (op : Op) (timer : Timer) :
  halfway_alerts (step_timer op timer).2
  = if latch_rises timer (step_timer op timer).1 then 1%nat else 0%nat.
Proof.
  unfold latch_rises.
  destruct op as [|timerId action|cat action].
  - simpl. destruct (tick_timer_cases timer) as [[E _]|Hrun].
    + rewrite E. simpl. now destruct (triggered timer).
    + rewrite (tick_timer_running timer Hrun). cbv zeta.
      destruct (num_leb _ (Int 0)).
      * simpl. unfold triggered. simpl.
        now destruct (default false (halfwayAlertTriggered timer)).
      * destruct (halfway_due timer) eqn:Hdue.
        -- unfold halfway_due in Hdue.
           apply andb_prop in Hdue as [Hdue _].
           apply andb_prop in Hdue as [_ Hnot].
           simpl. rewrite Hnot. reflexivity.
        -- simpl. unfold triggered. simpl.
           now destruct (default false (halfwayAlertTriggered timer)).
  - rewrite step_timer_targets by discriminate.
    destruct (targets _ timer) as [[]|]; unfold triggered; simpl;
      now destruct (default false (halfwayAlertTriggered timer)).
  - rewrite step_timer_targets by discriminate.
    destruct (targets _ timer) as [[]|]; unfold triggered; simpl;
      now destruct (default false (halfwayAlertTriggered timer)).
Qed.

(** Only a reset clears a latch that is set. *)
Lemma latch_stays_set (op : Op) (timer : Timer) :
  resets op timer = false ->
  triggered timer = true ->
  triggered (step_timer op timer).1 = true.
Proof.
  intros Hres Hset. destruct op as [|timerId action|cat action].
  - simpl. unfold tick_timer.
    destruct (negb _); [exact Hset|]. cbv zeta.
    destruct (num_leb _ _); [exact Hset|].
    destruct (_ && _ && _); [reflexivity|exact Hset].
  - rewrite step_timer_targets by discriminate. unfold resets in Hres.
    destruct (targets _ timer) as [[]|]; simpl; try exact Hset. discriminate.
  - rewrite step_timer_targets by discriminate. unfold resets in Hres.
    destruct (targets _ timer) as [[]|]; simpl; try exact Hset. discriminate.
Qed.

Lemma reset_clears_latch (op : Op) (timer : Timer) :
  resets op timer = true ->
  halfwayAlertTriggered (step_timer op timer).1 = Some false.
Proof.
  intros Hres. unfold resets in Hres.
  destruct op as [|timerId action|cat action]; [discriminate| |];
    rewrite step_timer_targets by discriminate;
    destruct (targets _ timer) as [[]|]; try discriminate; reflexivity.
Qed.

Lemma no_reset_step (op : Op) (ops : list Op) (timer : Timer) :
  Forall (fun op' => resets op' timer = false) ops ->
  Forall (fun op' => resets op' (step_timer op timer).1 = false) ops.
Proof.
  intros H. eapply Forall_impl; [exact H|].
  intros op' H'. unfold resets in *. now rewrite targets_step_timer.
Qed.

Lemma latch_set_no_rise (ops : list Op) (timer : Timer) :
  Forall (fun op => resets op timer = false) ops ->
  triggered timer = true ->
  latch_rise_count ops timer = 0%nat.
Proof.
  revert timer. induction ops as [|op ops IH]; intros timer Hops Hset.
  - reflexivity.
  - apply Forall_cons in Hops as [Hop Hops]. cbn [latch_rise_count].
    rewrite IH.
    + unfold latch_rises. now rewrite Hset.
    + now apply no_reset_step.
    + now apply latch_stays_set.
Qed.

Lemma latch_rises_at_most_once (ops : list Op) (timer : Timer) :
  Forall (fun op => resets op timer = false) ops ->
  (latch_rise_count ops timer <= 1)%nat.
Proof.
  revert timer. induction ops as [|op ops IH]; intros timer Hops.
  - simpl. lia.
  - apply Forall_cons in Hops as [Hop Hops]. cbn [latch_rise_count].
    destruct (latch_rises timer (step_timer op timer).1) eqn:E.
    + rewrite latch_set_no_rise; [lia|now apply no_reset_step|].
      unfold latch_rises in E. now apply andb_prop in E as [_ E].
    + specialize (IH (step_timer op timer).1 (no_reset_step op ops timer Hops)).
      lia.
Qed.

Lemma halfway_alerts_run_timer (ops : list Op) (timer : Timer) :
  halfway_alerts (run_timer ops timer).2 = latch_rise_count ops timer.
Proof.
  revert timer. induction ops as [|op ops IH]; intros timer.
  - reflexivity.
  - rewrite run_timer_cons, Eff_bind_snd. unfold halfway_alerts in *.
    rewrite count_events_app, IH. cbn [latch_rise_count].
    now rewrite <- halfway_alert_iff_latch_rises.
Qed.

(** C2: between two resets the latch of a timer goes from unset to set at
    most once; it does so only in a tick, only for a running timer with the
    halfway alert enabled, and only when the new [remainingTime] is
    <= duration / 2; a halfway alert is emitted exactly in the steps in
    which the latch is set; a reset always leaves the latch false. *)
Theorem halfway_latch (ops : list Op) (timer : Timer) :
  (Forall (fun op => resets op timer = false) ops ->
   (latch_rise_count ops timer <= 1)%nat)
  /\ halfway_alerts (run_timer ops timer).2 = latch_rise_count ops timer
  /\ forall op : Op,
       let timer' := (step_timer op timer).1 in
       (latch_rises timer timer' = true ->
        op = Tick
        /\ halfwayAlert timer = true
        /\ status timer = running
        /\ remainingTime timer' = num_sub (remainingTime timer) (Int 1)
        /\ num_leb_half (remainingTime timer') (duration timer) = true)
       /\ halfway_alerts (step_timer op timer).2
          = (if latch_rises timer timer' then 1%nat else 0%nat)
       /\ (resets op timer = true ->
           halfwayAlertTriggered timer' = Some false).
Proof.
  split; [apply latch_rises_at_most_once|].
  split; [apply halfway_alerts_run_timer|].
  intros op timer'. subst timer'.
  split; [apply latch_rises_only_at_halfway|].
  split; [apply halfway_alert_iff_latch_rises|].
  apply reset_clears_latch.
Qed.

Lemma halfway_latch_witness :
  let ops := [TimerAction "1700000000002" start; Tick; Tick; Tick; Tick; Tick;
              CategoryAction "Cooking" pause; CategoryAction "Cooking" start;
              Tick; Tick] in
  (latch_rise_count ops pasta <= 1)%nat
  /\ halfway_alerts (run_timer ops pasta).2 = latch_rise_count ops pasta.
Proof.
  intros ops. destruct (halfway_latch ops pasta) as (H1 & H2 & _).
  split; [|exact H2].
  apply H1. repeat constructor.
Defined.

Example halfway_scenario :
  let ops := [TimerAction "1700000000002" start; Tick; Tick; Tick; Tick] in
  halfway_alerts (run_timer ops pasta).2 = 0%nat
  /\ (run_timer (ops ++ [Tick]) pasta).2
     = [Alert halfway_title "Pasta is halfway complete!"]
  /\ remainingTime (run_timer (ops ++ [Tick]) pasta).1 = Int 5
  /\ (run_timer (ops ++ [Tick; Tick; Tick; Tick; Tick; Tick]) pasta).1
     = with_halfwayAlertTriggered true
         (with_status completed (with_remainingTime (Int 0) pasta)).
Proof. intros ops. subst ops. repeat split; vm_compute; reflexivity. Qed.

(** ** Completion events *)

Lemma reaches_zero_same (timer timer' : Timer) :
  remainingTime timer' = remainingTime timer ->
  reaches_zero timer timer' = false.
Proof.
  intros E. unfold reaches_zero. rewrite E.
  now destruct (num_is_zero (remainingTime timer)).
Qed.

Lemma handleTimerComplete_appends (completedAt : string) (timer : Timer)
    (history : option (list HistoryEntry.t)) :
  exists entry : HistoryEntry.t,
    handleTimerComplete completedAt timer history = default [] history ++ [entry]
    /\ HistoryEntry.timerId entry = id timer
    /\ HistoryEntry.name entry = name timer
    /\ HistoryEntry.category entry = category timer.
Proof. eexists. repeat split. Qed.

(** A tick emits a completion event for a timer exactly when the timer is
    running and [remainingTime - 1 <= 0]. *)
Lemma completion_iff_running_out (timer : Timer) :
  completions (tick_timer timer).2
  = if Status_eqb (status timer) running
       && num_leb (num_sub (remainingTime timer) (Int 1)) (Int 0)
    then 1%nat else 0%nat.
Proof.
  destruct (tick_timer_cases timer) as [[E Hn]|Hrun].
  - rewrite E. apply Status_eqb_running in Hn. now rewrite Hn.
  - rewrite (tick_timer_running timer Hrun), Hrun. cbv zeta. simpl.
    destruct (num_leb _ (Int 0)); [reflexivity|].
    now destruct (halfway_due timer).
Qed.

Lemma step_timer_completion (op : Op) (timer : Timer) :
  well_formed timer ->
  time_left_when_running timer ->
  completions (step_timer op timer).2
  = if reaches_zero timer (step_timer op timer).1 then 1%nat else 0%nat.
Proof.
  intros Hw Hleft.
  destruct (well_formed_inv timer Hw) as (d & r & Hd & Hr & Hpos & Hb).
  destruct op as [|timerId action|cat action].
  - simpl. destruct (tick_timer_cases timer) as [[E _]|Hrun].
    + rewrite E. simpl. now rewrite reaches_zero_same.
    + specialize (Hleft Hrun). rewrite Hr in Hleft.
      apply num_leb_Int in Hleft.
      rewrite (tick_timer_running timer Hrun). cbv zeta.
      rewrite Hr. simpl num_sub.
      destruct (num_leb (Int (r - 1)) (Int 0)) eqn:E.
      * apply num_leb_Int in E. unfold reaches_zero. simpl. rewrite Hr. simpl.
        replace (r =? 0) with false by (symmetry; apply Z.eqb_neq; lia).
        reflexivity.
      * assert (r - 1 <> 0).
        { intros E0. rewrite E0 in E. discriminate E. }
        destruct (halfway_due timer); unfold reaches_zero; simpl;
          replace (r - 1 =? 0) with false by (symmetry; now apply Z.eqb_neq);
          now rewrite andb_false_r.
  - rewrite step_timer_targets by discriminate.
    destruct (targets _ timer) as [[]|]; simpl;
      try (now rewrite reaches_zero_same).
    unfold reaches_zero. simpl. rewrite Hd. simpl.
    replace (d =? 0) with false by (symmetry; apply Z.eqb_neq; lia).
    now rewrite andb_false_r.
  - rewrite step_timer_targets by discriminate.
    destruct (targets _ timer) as [[]|]; simpl;
      try (now rewrite reaches_zero_same).
    unfold reaches_zero. simpl. rewrite Hd. simpl.
    replace (d =? 0) with false by (symmetry; apply Z.eqb_neq; lia).
    now rewrite andb_false_r.
Qed.

Lemma step_timer_time_left (op : Op) (timer : Timer) :
  well_formed timer ->
  time_left_when_running timer ->
  (starts op timer = true -> num_leb (Int 1) (remainingTime timer) = true) ->
  time_left_when_running (step_timer op timer).1.
Proof.
  intros Hw Hleft Hstart.
  destruct (well_formed_inv timer Hw) as (d & r & Hd & Hr & Hpos & Hb).
  unfold time_left_when_running in *.
  destruct op as [|timerId action|cat action].
  - simpl. destruct (tick_timer_cases timer) as [[E _]|Hrun].
    + now rewrite E.
    + specialize (Hleft Hrun). rewrite Hr in Hleft.
      apply num_leb_Int in Hleft.
      rewrite (tick_timer_running timer Hrun). cbv zeta.
      rewrite Hr. simpl num_sub.
      destruct (num_leb (Int (r - 1)) (Int 0)) eqn:E; [discriminate|].
      assert (1 <= r - 1).
      { destruct (Z.leb_spec (r - 1) 0) as [Hle|Hgt]; [|lia].
        apply num_leb_Int in Hle. congruence. }
      destruct (halfway_due timer); simpl; intros _; apply num_leb_Int; lia.
  - rewrite step_timer_targets by discriminate. unfold starts in Hstart.
    destruct (targets _ timer) as [[]|]; simpl; auto; discriminate.
  - rewrite step_timer_targets by discriminate. unfold starts in Hstart.
    destruct (targets _ timer) as [[]|]; simpl; auto; discriminate.
Qed.

(** C6, as stated, fails: an idle one-second timer is started and runs to
    zero once, is started again while completed, and the next tick emits a
    second completion event although [remainingTime] was 0 already. *)
Lemma completion_repeated_after_restart : ~ completion_exactly_at_zero.
Proof.
  intros H.
  specialize (H [TimerAction "1700000000001" start; Tick;
                 CategoryAction "Cooking" start; Tick] egg).
  assert (Hw : well_formed egg) by (unfold well_formed; simpl; lia).
  specialize (H Hw eq_refl). vm_compute in H. discriminate H.
Qed.

Example restart_of_completed_timer :
  let ops := [TimerAction "1700000000001" start; Tick;
              CategoryAction "Cooking" start; Tick] in
  completions (run_timer ops egg).2 = 2%nat
  /\ run_to_zero_count ops egg = 1%nat.
Proof. split; reflexivity. Qed.

(** C6, amended: for a timer that is never started while its
    [remainingTime] is 0, every step of a run emits one completion event
    if [remainingTime] becomes 0 in that step and none otherwise; so the
    completion events of the run are as many as its runs to zero, each
    emitted at the tick at which [remainingTime] becomes 0. *)
Theorem completion_once_per_run_to_zero (ops : list Op) (timer : Timer) :
  well_formed timer ->
  time_left_when_running timer ->
  started_with_time_left ops timer = true ->
  completes_once_per_run_to_zero ops timer = true
  /\ completions (run_timer ops timer).2 = run_to_zero_count ops timer.
Proof.
  revert timer. induction ops as [|op ops IH]; intros timer Hw Hleft Hops.
  - split; reflexivity.
  - cbn [started_with_time_left] in Hops.
    apply andb_prop in Hops as [Hstart Hops].
    assert (Hstart' : starts op timer = true ->
                      num_leb (Int 1) (remainingTime timer) = true).
    { intros E. now rewrite E in Hstart. }
    destruct (IH (step_timer op timer).1
                (step_timer_well_formed op timer Hw)
                (step_timer_time_left op timer Hw Hleft Hstart')
                Hops) as [IH1 IH2].
    pose proof (step_timer_completion op timer Hw Hleft) as Hstep.
    split.
    + cbn [completes_once_per_run_to_zero].
      destruct (step_timer op timer) as [timer' events]. simpl in *.
      rewrite IH1, Hstep, Nat.eqb_refl. reflexivity.
    + rewrite run_timer_cons, Eff_bind_snd. unfold completions in *.
      rewrite count_events_app, IH2, Hstep. reflexivity.
Qed.

Lemma completion_once_per_run_to_zero_witness :
  let ops := [CategoryAction "Cooking" start; Tick; Tick;
              TimerAction "1700000000001" reset;
              TimerAction "1700000000001" start; Tick] in
  completes_once_per_run_to_zero ops egg = true
  /\ completions (run_timer ops egg).2 = run_to_zero_count ops egg.
Proof.
  intros ops. apply (completion_once_per_run_to_zero ops egg).
  - unfold well_formed. simpl. lia.
  - intros H. discriminate H.
  - reflexivity.
Defined.

Example two_runs_two_completions :
  let ops := [CategoryAction "Cooking" start; Tick; Tick;
              TimerAction "1700000000001" reset;
              TimerAction "1700000000001" start; Tick] in
  completions (run_timer ops egg).2 = 2%nat
  /\ run_to_zero_count ops egg = 2%nat.
Proof. split; reflexivity. Qed.

(** ** From one timer to the whole list *)

(** The halfway alerts of a run of the list are the latch rises of its
    timers. *)
Corollary halfway_alerts_run (ops : list Op) (timers : list Timer) :
  halfway_alerts (run ops timers).2
  = sum_list (map (latch_rise_count ops) timers).
Proof.
  unfold halfway_alerts. rewrite run_count_events.
  f_equal. apply map_ext. intros timer. apply halfway_alerts_run_timer.
Qed.

(** No event is emitted by the two action handlers. *)
Lemma actions_emit_nothing (op : Op) (timers : list Timer) :
  op <> Tick -> (step op timers).2 = [].
Proof. destruct op; [contradiction|reflexivity|reflexivity]. Qed.

(** A tick leaves every timer that is not running as it is. *)
Lemma tick_keeps_other_timers (timers : list Timer) (i : nat) (timer : Timer) :
  timers !! i = Some timer ->
  status timer <> running ->
  (tick timers).1 !! i = Some timer.
Proof.
  intros Hi Hn. rewrite tick_lookup, Hi. simpl.
  now rewrite (tick_timer_not_running timer Hn).
Qed.

(** * Further properties of the screen *)

(** ** What never changes *)

Lemma tick_timer_name (timer : Timer) :
  name (tick_timer timer).1 = name timer
  /\ halfwayAlert (tick_timer timer).1 = halfwayAlert timer.
Proof.
  unfold tick_timer.
  destruct (negb _); [split; reflexivity|]. cbv zeta.
  destruct (num_leb _ _); [split; reflexivity|].
  destruct (_ && _ && _); split; reflexivity.
Qed.

Lemma step_timer_name (op : Op) (timer : Timer) :
  name (step_timer op timer).1 = name timer
  /\ halfwayAlert (step_timer op timer).1 = halfwayAlert timer.
Proof.
  destruct op as [|timerId action|cat action]; simpl.
  - apply tick_timer_name.
  - rewrite timer_action_table.
    destruct (String.eqb _ _); [|split; reflexivity].
    destruct action; split; reflexivity.
  - rewrite category_action_table.
    destruct (String.eqb _ _); [|split; reflexivity].
    destruct action; split; reflexivity.
Qed.

Lemma run_timer_fixed_fields (ops : list Op) (timer : Timer) :
  id (run_timer ops timer).1 = id timer
  /\ name (run_timer ops timer).1 = name timer
  /\ category (run_timer ops timer).1 = category timer
  /\ duration (run_timer ops timer).1 = duration timer
  /\ halfwayAlert (run_timer ops timer).1 = halfwayAlert timer.
Proof.
  revert timer. induction ops as [|op ops IH]; intros timer.
  - repeat split.
  - rewrite run_timer_cons, Eff_bind_fst.
    destruct (IH (step_timer op timer).1) as (H1 & H2 & H3 & H4 & H5).
    destruct (step_timer_name op timer) as [Hn Hh].
    rewrite H1, H2, H3, H4, H5, Hn, Hh.
    rewrite step_timer_id, step_timer_category, step_timer_duration.
    repeat split.
Qed.

(** No tick and no action ever changes the id, the name, the category, the
    duration or the halfway setting of a timer, adds a timer, removes one
    or reorders the list. *)
Theorem run_keeps_fixed_fields (ops : list Op) (timers : list Timer) :
  length (run ops timers).1 = length timers
  /\ map id (run ops timers).1 = map id timers
  /\ map name (run ops timers).1 = map name timers
  /\ map category (run ops timers).1 = map category timers
  /\ map duration (run ops timers).1 = map duration timers
  /\ map halfwayAlert (run ops timers).1 = map halfwayAlert timers.
Proof.
  rewrite run_fst, length_map, !map_map.
  split; [reflexivity|].
  repeat split; apply map_ext; intros timer;
    destruct (run_timer_fixed_fields ops timer) as (H1 & H2 & H3 & H4 & H5);
    assumption.
Qed.

(** ** Counting down *)


Lemma num_leb_Int_false (x y : Z) : num_leb (Int x) (Int y) = false <-> y < x.
Proof. apply Z.leb_gt. Qed.



(** ** When the halfway alert comes *)




(** ** How actions compose *)

(** Actions aimed at two different ids, or at two different categories,
    can be applied in either order. *)
Theorem actions_on_different_targets_commute
    (target1 target2 : string) (a b : Action) (timers : list Timer) :
  target1 <> target2 ->
  handleTimerAction target1 a (handleTimerAction target2 b timers)
  = handleTimerAction target2 b (handleTimerAction target1 a timers)
  /\ handleCategoryAction target1 a (handleCategoryAction target2 b timers)
  = handleCategoryAction target2 b (handleCategoryAction target1 a timers).
Proof.
  intros Hne. unfold handleTimerAction, handleCategoryAction.
  rewrite !map_map. split; apply map_ext; intros timer.
  - rewrite !timer_action_table.
    destruct (String.eqb (id timer) target1) eqn:E1;
      destruct (String.eqb (id timer) target2) eqn:E2;
      rewrite ?action_table_id, ?E1, ?E2; try reflexivity.
    apply String.eqb_eq in E1, E2. congruence.
  - rewrite !category_action_table.
    destruct (String.eqb (category timer) target1) eqn:E1;
      destruct (String.eqb (category timer) target2) eqn:E2;
      rewrite ?action_table_category, ?E1, ?E2; try reflexivity.
    apply String.eqb_eq in E1, E2. congruence.
Qed.

Lemma actions_on_different_targets_commute_witness :
  handleCategoryAction "Cooking" start
    (handleCategoryAction "Study" reset [egg; reading; pasta])
  = handleCategoryAction "Study" reset
      (handleCategoryAction "Cooking" start [egg; reading; pasta]).
Proof.
  apply (actions_on_different_targets_commute "Cooking" "Study").
  discriminate.
Defined.

Lemma action_table_overrides (a b : Action) (timer : Timer) :
  a <> reset \/ b = reset ->
  action_table b (action_table a timer) = action_table b timer.
Proof.
  intros [H|H]; destruct a, b; try reflexivity; congruence.
Qed.

(** On one target the later action wins: a reset wipes out whatever action
    came before it, and of a start and a pause only the second counts.
    (Only an action after a reset adds to it.) *)
Theorem later_action_overrides
    (target : string) (a b : Action) (timers : list Timer) :
  a <> reset \/ b = reset ->
  handleTimerAction target b (handleTimerAction target a timers)
  = handleTimerAction target b timers
  /\ handleCategoryAction target b (handleCategoryAction target a timers)
  = handleCategoryAction target b timers.
Proof.
  intros H. unfold handleTimerAction, handleCategoryAction.
  rewrite !map_map. split; apply map_ext; intros timer.
  - rewrite !timer_action_table.
    destruct (String.eqb (id timer) target) eqn:E; [|now rewrite E].
    now rewrite action_table_id, E, action_table_overrides.
  - rewrite !category_action_table.
    destruct (String.eqb (category timer) target) eqn:E; [|now rewrite E].
    now rewrite action_table_category, E, action_table_overrides.
Qed.

Lemma later_action_overrides_witness :
  handleCategoryAction "Cooking" reset
    (handleCategoryAction "Cooking" start [egg; reading; pasta])
  = handleCategoryAction "Cooking" reset [egg; reading; pasta].
Proof.
  apply (later_action_overrides "Cooking" start reset).
  left. discriminate.
Defined.

Example start_after_reset_adds :
  handleCategoryAction "Study" start (handleCategoryAction "Study" reset [reading])
  <> handleCategoryAction "Study" start [reading].
Proof. discriminate. Qed.

(** ** The life cycle under the per-timer buttons *)

Lemma consistent_well_formed (timer : Timer) :
  consistent timer -> well_formed timer /\ time_left_when_running timer.
Proof.
  intros [Hw Hs]. split; [exact Hw|].
  intros Hrun. now rewrite Hrun in Hs.
Qed.

(** A step is guarded when every action it aims at the timer is one whose
    button is enabled for it. *)
Lemma guarded_step_consistent (op : Op) (timer : Timer) :
  consistent timer ->
  (forall a, targets op timer = Some a -> button_disabled a timer = false) ->
  consistent (step_timer op timer).1.
Proof.
  intros [Hw Hs] Hguard.
  destruct (well_formed_inv timer Hw) as (d & r & Hd & Hr & Hpos & Hb).
  split; [now apply step_timer_well_formed|].
  destruct op as [|timerId action|cat action].
  - simpl. destruct (tick_timer_cases timer) as [[E _]|Hrun].
    + now rewrite E.
    + rewrite Hrun, Hr in Hs. apply num_leb_Int in Hs.
      rewrite (tick_timer_running timer Hrun). cbv zeta.
      rewrite Hr. simpl num_sub.
      destruct (num_leb (Int (r - 1)) (Int 0)) eqn:E; [reflexivity|].
      apply num_leb_Int_false in E.
      destruct (halfway_due timer); simpl; rewrite Hrun;
        apply num_leb_Int; lia.
  - rewrite step_timer_targets by discriminate.
    destruct (targets _ timer) as [a|]; [|exact Hs].
    specialize (Hguard a eq_refl). rewrite Hr, Hd in Hs.
    destruct a; simpl in *.
    + destruct (status timer); try discriminate; rewrite Hr.
      * injection Hs as ->. apply num_leb_Int. lia.
      * exact Hs.
    + destruct (status timer); try discriminate. now rewrite Hr.
    + reflexivity.
  - rewrite step_timer_targets by discriminate.
    destruct (targets _ timer) as [a|]; [|exact Hs].
    specialize (Hguard a eq_refl). rewrite Hr, Hd in Hs.
    destruct a; simpl in *.
    + destruct (status timer); try discriminate; rewrite Hr.
      * injection Hs as ->. apply num_leb_Int. lia.
      * exact Hs.
    + destruct (status timer); try discriminate. now rewrite Hr.
    + reflexivity.
Qed.

Lemma guarded_step_transition (op : Op) (timer : Timer) :
  (forall a, targets op timer = Some a -> button_disabled a timer = false) ->
  transition_allowed (status timer) (status (step_timer op timer).1) = true.
Proof.
  intros Hguard. destruct op as [|timerId action|cat action].
  - simpl. destruct (tick_timer_cases timer) as [[E _]|Hrun].
    + rewrite E. simpl. now destruct (status timer).
    + rewrite (tick_timer_running timer Hrun), Hrun. cbv zeta.
      destruct (num_leb _ (Int 0)); [reflexivity|].
      destruct (halfway_due timer); simpl; now rewrite Hrun.
  - rewrite step_timer_targets by discriminate.
    destruct (targets _ timer) as [a|]; [|simpl; now destruct (status timer)].
    specialize (Hguard a eq_refl).
    destruct a; simpl in *; destruct (status timer); try discriminate;
      reflexivity.
  - rewrite step_timer_targets by discriminate.
    destruct (targets _ timer) as [a|]; [|simpl; now destruct (status timer)].
    specialize (Hguard a eq_refl).
    destruct a; simpl in *; destruct (status timer); try discriminate;
      reflexivity.
Qed.

Lemma same_id_same_timer (timers : list Timer) (x y : Timer) :
  NoDup (map id timers) -> x ∈ timers -> y ∈ timers -> id x = id y -> x = y.
Proof.
  induction timers as [|t timers IH]; intros Hnd Hx Hy Hid.
  - inversion Hx.
  - simpl in Hnd. apply NoDup_cons in Hnd as [Hnotin Hnd].
    apply elem_of_cons in Hx as [->|Hx]; apply elem_of_cons in Hy as [->|Hy].
    + reflexivity.
    + exfalso. apply Hnotin. rewrite Hid. apply list_elem_of_fmap. eauto.
    + exfalso. apply Hnotin. rewrite <- Hid. apply list_elem_of_fmap. eauto.
    + now apply IH.
Qed.

(** With distinct ids, the handler called by an enabled button acts on the
    timer of that button only. *)
Lemma press_is_guarded
    (timers : list Timer) (i : nat) (timer : Timer) (action : Action) :
  NoDup (map id timers) ->
  timers !! i = Some timer ->
  button_disabled action timer = false ->
  forall t, t ∈ timers ->
    forall a, targets (TimerAction (id timer) action) t = Some a ->
      button_disabled a t = false.
Proof.
  intros Hnd Hi Hen t Ht a. simpl.
  destruct (String.eqb (id t) (id timer)) eqn:E; [|discriminate].
  intros [= <-]. apply String.eqb_eq in E.
  assert (t = timer) as ->; [|exact Hen].
  apply (same_id_same_timer timers); trivial.
  apply list_elem_of_lookup. eauto.
Qed.

Lemma step_map_id (op : Op) (timers : list Timer) :
  map id (step op timers).1 = map id timers.
Proof.
  rewrite step_fst, map_map. apply map_ext. intros t. apply step_timer_id.
Qed.

(** A gesture of the clock or of a per-timer button either changes nothing
    or is a guarded step of the timer list. *)
Lemma own_button_cases (g : Gesture) (screen : Screen) :
  own_buttons_only g = true ->
  NoDup (map id (shown screen)) ->
  perform g screen = (screen, [])
  \/ exists op : Op,
       shown (perform g screen).1 = (step op (shown screen)).1
       /\ (perform g screen).2 = (step op (shown screen)).2
       /\ forall t, t ∈ shown screen ->
            forall a, targets op t = Some a -> button_disabled a t = false.
Proof.
  intros Hown Hnd. destruct g as [|i action| |]; try discriminate.
  - right. exists Tick. unfold perform, step.
    rewrite Eff_bind_fst, Eff_bind_snd. simpl.
    rewrite app_nil_r. repeat split. intros t _ a [=].
  - simpl. destruct (shown screen !! i) as [timer|] eqn:Hi; [|now left].
    destruct (button_disabled action timer) eqn:Hen; [now left|].
    right. exists (TimerAction (id timer) action). simpl. repeat split.
    now apply (press_is_guarded (shown screen) i).
Qed.

Lemma step_Forall (P : Timer -> Prop) (op : Op) (timers : list Timer) :
  (forall t, t ∈ timers -> P (step_timer op t).1) ->
  Forall P (step op timers).1.
Proof.
  intros H. rewrite step_fst. apply Forall_fmap, Forall_forall. exact H.
Qed.

Lemma own_button_keeps_consistent (g : Gesture) (screen : Screen) :
  own_buttons_only g = true ->
  NoDup (map id (shown screen)) ->
  Forall consistent (shown screen) ->
  NoDup (map id (shown (perform g screen).1))
  /\ Forall consistent (shown (perform g screen).1).
Proof.
  intros Hown Hnd Hc.
  destruct (own_button_cases g screen Hown Hnd) as [E|(op & E1 & _ & Hg)].
  - rewrite E. auto.
  - rewrite E1, step_map_id. split; [exact Hnd|].
    apply step_Forall. intros t Ht.
    apply guarded_step_consistent; [|now apply Hg].
    rewrite Forall_forall in Hc. now apply Hc.
Qed.

(** With distinct ids, the clock and the per-timer buttons keep every
    timer in the life cycle: an idle timer has its full duration left, a
    running or paused one at least a second, a completed one nothing. *)
Theorem own_buttons_keep_life_cycle (gs : list Gesture) (screen : Screen) :
  Forall (fun g => own_buttons_only g = true) gs ->
  NoDup (map id (shown screen)) ->
  Forall consistent (shown screen) ->
  Forall consistent (shown (perform_all gs screen).1).
Proof.
  revert screen. induction gs as [|g gs IH]; intros screen Hgs Hnd Hc.
  - exact Hc.
  - apply Forall_cons in Hgs as [Hg Hgs].
    destruct (own_button_keeps_consistent g screen Hg Hnd Hc) as [Hnd' Hc'].
    change (perform_all (g :: gs) screen)
      with (perform g screen ≫= perform_all gs).
    rewrite Eff_bind_fst. now apply IH.
Qed.

Lemma consistent_pasta : consistent pasta.
Proof.
  split; [|reflexivity]. unfold well_formed. simpl. lia.
Qed.

Lemma consistent_egg : consistent egg.
Proof.
  split; [|reflexivity]. unfold well_formed. simpl. lia.
Qed.

Lemma NoDup_egg_pasta : NoDup (map id [egg; pasta]).
Proof.
  simpl. apply NoDup_cons. split.
  - intros H. apply elem_of_cons in H as [H|H]; [discriminate H|inversion H].
  - apply NoDup_singleton.
Qed.

Lemma own_buttons_keep_life_cycle_witness :
  Forall consistent
    (shown (perform_all [Press 0 start; Wait; Press 0 start; Press 1 pause;
                         Wait; Press 0 reset]
              (loadTimers (Some [egg; pasta]))).1).
Proof.
  apply own_buttons_keep_life_cycle.
  - repeat constructor.
  - exact NoDup_egg_pasta.
  - constructor; [exact consistent_egg|].
    constructor; [exact consistent_pasta|constructor].
Defined.

(** With distinct ids, a gesture of the clock or of a per-timer button
    moves each timer along an edge of the life cycle only: idle or paused
    to running, running to paused or to completed, anything to idle. *)
Theorem own_buttons_follow_life_cycle (g : Gesture) (screen : Screen) :
  own_buttons_only g = true ->
  NoDup (map id (shown screen)) ->
  Forall2 (fun timer timer' =>
             transition_allowed (status timer) (status timer') = true)
    (shown screen) (shown (perform g screen).1).
Proof.
  intros Hown Hnd.
  destruct (own_button_cases g screen Hown Hnd) as [E|(op & E1 & _ & Hg)].
  - rewrite E. apply Forall_Forall2_diag, Forall_forall.
    intros t _. simpl. destruct (status t); reflexivity.
  - rewrite E1, step_fst. apply Forall2_fmap_r, Forall_Forall2_diag, Forall_forall.
    intros t Ht. apply guarded_step_transition. now apply Hg.
Qed.

Lemma own_buttons_follow_life_cycle_witness :
  Forall2 (fun timer timer' =>
             transition_allowed (status timer) (status timer') = true)
    [egg; pasta]
    (shown (perform (Press 1 start) (loadTimers (Some [egg; pasta]))).1).
Proof.
  apply (own_buttons_follow_life_cycle (Press 1 start)
           (loadTimers (Some [egg; pasta]))).
  - reflexivity.
  - exact NoDup_egg_pasta.
Defined.

Example category_pause_leaves_life_cycle :
  transition_allowed (status egg)
    (status (category_action "Cooking" pause egg)) = false.
Proof. reflexivity. Qed.

(** ** Completions under the per-timer buttons *)

Lemma zero_reached_same (timers : list Timer) : zero_reached timers timers = 0%nat.
Proof.
  induction timers as [|t timers IH]; [reflexivity|].
  simpl. now rewrite reaches_zero_same, IH.
Qed.

Lemma step_completions_zero_reached (op : Op) (timers : list Timer) :
  Forall (fun t => well_formed t /\ time_left_when_running t) timers ->
  completions (step op timers).2 = zero_reached timers (step op timers).1.
Proof.
  intros H. rewrite step_fst, step_snd. unfold completions.
  induction H as [|t timers [Hw Hl] _ IH]; [reflexivity|].
  cbn [map concat zero_reached].
  rewrite count_events_app, IH.
  pose proof (step_timer_completion op t Hw Hl) as Hc.
  unfold completions in Hc. now rewrite Hc.
Qed.


(** With distinct ids and timers in the life cycle, every gesture of the
    clock or of a per-timer button emits exactly one completion event for
    each timer whose [remainingTime] becomes 0 in it, and no other: under
    these buttons a run to zero is recorded once. *)
Theorem own_buttons_complete_once (gs : list Gesture) (screen : Screen) :
  Forall (fun g => own_buttons_only g = true) gs ->
  NoDup (map id (shown screen)) ->
  Forall consistent (shown screen) ->
  each_completion_at_zero gs screen = true.
Proof.
  revert screen. induction gs as [|g gs IH]; intros screen Hgs Hnd Hc.
  - reflexivity.
  - apply Forall_cons in Hgs as [Hg Hgs].
    destruct (own_button_keeps_consistent g screen Hg Hnd Hc) as [Hnd' Hc'].
    specialize (IH (perform g screen).1 Hgs Hnd' Hc').
    cbn [each_completion_at_zero].
    assert (Hstep : completions (perform g screen).2
                    = zero_reached (shown screen) (shown (perform g screen).1)).
    { destruct (own_button_cases g screen Hg Hnd) as [E|(op & E1 & E2 & _)].
      - rewrite E. simpl. now rewrite zero_reached_same.
      - rewrite E1, E2. apply step_completions_zero_reached.
        eapply Forall_impl; [exact Hc|].
        intros t Ht. now apply consistent_well_formed. }
    destruct (perform g screen) as [screen' events]. simpl in *.
    now rewrite Hstep, Nat.eqb_refl, IH.
Qed.

Lemma own_buttons_complete_once_witness :
  each_completion_at_zero
    [Press 0 start; Wait; Press 0 start; Wait; Press 0 reset; Press 0 start; Wait]
    (loadTimers (Some [egg; pasta])) = true.
Proof.
  apply own_buttons_complete_once.
  - repeat constructor.
  - exact NoDup_egg_pasta.
  - constructor; [exact consistent_egg|].
    constructor; [exact consistent_pasta|constructor].
Defined.

Example category_start_completes_twice :
  each_completion_at_zero
    [Press 0 start; Wait; PressCategory "Cooking" start; Wait]
    (loadTimers (Some [egg; pasta])) = false.
Proof. reflexivity. Qed.

(** ** What is stored *)





Example ticks_are_not_stored :
  let screen := (perform_all [Press 0 start; Wait; Wait]
                   (loadTimers (Some [pasta]))).1 in
  map remainingTime (shown screen) = [Int 8]
  /\ map remainingTime <$> stored screen = Some [Int 10].
Proof. split; reflexivity. Qed.

(** ** Expanded categories *)

(** Toggling a category twice gives back the set of expanded categories;
    one toggle flips that category and no other. *)
Theorem toggleCategory_flips (category : string) (prev : gset string) :
  toggleCategory category (toggleCategory category prev) = prev
  /\ (category ∈ toggleCategory category prev <-> category ∉ prev)
  /\ forall other : string,
       other <> category ->
       (other ∈ toggleCategory category prev <-> other ∈ prev).
Proof.
  unfold toggleCategory. split; [|split].
  - destruct (decide (category ∈ prev)) as [Hin|Hnot].
    + rewrite decide_False
        by (rewrite elem_of_difference, elem_of_singleton; tauto).
      apply set_eq. intros x. rewrite elem_of_union, elem_of_difference,
        elem_of_singleton.
      destruct (decide (x = category)) as [->|Hne]; tauto.
    + rewrite decide_True
        by (rewrite elem_of_union, elem_of_singleton; tauto).
      apply set_eq. intros x. rewrite elem_of_difference, elem_of_union,
        elem_of_singleton.
      split; [tauto|]. intros Hx. split; [tauto|]. congruence.
  - destruct (decide (category ∈ prev)) as [Hin|Hnot].
    + rewrite elem_of_difference, elem_of_singleton. tauto.
    + rewrite elem_of_union, elem_of_singleton. tauto.
  - intros other Hne. destruct (decide (category ∈ prev)) as [Hin|Hnot].
    + rewrite elem_of_difference, elem_of_singleton. tauto.
    + rewrite elem_of_union, elem_of_singleton. tauto.
Qed.

Lemma toggleCategory_flips_witness :
  "Study" ∈ toggleCategory "Cooking" {["Study"]}
  /\ "Cooking" ∈ toggleCategory "Cooking" {["Study"]}.
Proof.
  destruct (toggleCategory_flips "Cooking" {["Study"]}) as (_ & Hflip & Hkeep).
  split.
  - apply (Hkeep "Study"); [discriminate|]. now apply elem_of_singleton.
  - apply Hflip. rewrite elem_of_singleton. discriminate.
Defined.

(** ** Grouping by category *)

Lemma groupTimersByCategory_snoc (inherited : string -> bool)
    (timers : list Timer) (timer : Timer) :
  groupTimersByCategory inherited (timers ++ [timer])
  = group_timer inherited (groupTimersByCategory inherited timers) timer.
Proof. unfold groupTimersByCategory. now rewrite foldl_app. Qed.

Lemma members_of_snoc (cat : string) (timers : list Timer) (timer : Timer) :
  members_of cat (timers ++ [timer])
  = members_of cat timers ++ (if decide (category timer = cat) then [timer] else []).
Proof.
  unfold members_of. rewrite filter_app, filter_cons, filter_nil.
  now destruct (decide _).
Qed.

(** What the reducer returns, by cases. *)
Lemma groupTimersByCategory_spec (inherited : string -> bool) (timers : list Timer) :
  match groupTimersByCategory inherited timers with
  | Some groups =>
      Forall (fun t => inherited (category t) = false) timers
      /\ forall cat,
           groups !! cat
           = match members_of cat timers with
             | [] => None
             | members => Some members
             end
  | None => Exists (fun t => inherited (category t) = true) timers
  end.
Proof.
  induction timers as [|timer timers IH] using rev_ind.
  - simpl. split; [constructor|]. intros cat. apply lookup_empty.
  - rewrite groupTimersByCategory_snoc.
    destruct (groupTimersByCategory inherited timers) as [groups|].
    + destruct IH as [Hall Hlook]. unfold group_timer. simpl.
      pose proof (Hlook (category timer)) as Hc.
      destruct (groups !! category timer) as [members|] eqn:Hg.
      * assert (Hmem : members_of (category timer) timers = members).
        { destruct (members_of (category timer) timers); congruence. }
        assert (Hok : inherited (category timer) = false).
        { destruct members as [|m ms];
            [destruct (members_of (category timer) timers); discriminate|].
          assert (Hin : m ∈ members_of (category timer) timers)
            by (rewrite Hmem; left).
          apply list_elem_of_filter in Hin as [Hcat Hin].
          rewrite Forall_forall in Hall. rewrite <- Hcat. now apply Hall. }
        split.
        -- apply Forall_app. split; [exact Hall|]. now constructor.
        -- intros cat. rewrite members_of_snoc.
           destruct (decide (category timer = cat)) as [<-|Hne].
           ++ rewrite lookup_insert_eq, Hmem.
              now destruct members.
           ++ rewrite lookup_insert_ne by exact Hne.
              now rewrite app_nil_r.
      * assert (Hmem : members_of (category timer) timers = []).
        { destruct (members_of (category timer) timers); congruence. }
        destruct (inherited (category timer)) eqn:Hinh.
        -- apply Exists_app. right. now constructor.
        -- split.
           ++ apply Forall_app. split; [exact Hall|]. now constructor.
           ++ intros cat. rewrite members_of_snoc.
              destruct (decide (category timer = cat)) as [<-|Hne].
              ** now rewrite lookup_insert_eq, Hmem.
              ** rewrite lookup_insert_ne by exact Hne.
                 now rewrite app_nil_r.
    + simpl. apply Exists_app. now left.
Qed.

(** When no category is a name that an object inherits, grouping gives,
    under each category, the timers of that category in the order of the
    list, and no entry for a category without timers; there is no group at
    all exactly when there is no timer. *)
Theorem grouping_by_category (inherited : string -> bool) (timers : list Timer) :
  Forall (fun t => inherited (category t) = false) timers ->
  exists groups : gmap string (list Timer),
    groupTimersByCategory inherited timers = Some groups
    /\ (forall cat,
          groups !! cat
          = match members_of cat timers with
            | [] => None
            | members => Some members
            end)
    /\ (groups = ∅ <-> timers = []).
Proof.
  intros Hall. pose proof (groupTimersByCategory_spec inherited timers) as H.
  destruct (groupTimersByCategory inherited timers) as [groups|].
  - destruct H as [_ Hlook]. exists groups. split; [reflexivity|].
    split; [exact Hlook|]. split.
    + intros ->. destruct timers as [|t timers]; [reflexivity|].
      specialize (Hlook (category t)). rewrite lookup_empty in Hlook.
      unfold members_of in Hlook.
      rewrite filter_cons_True in Hlook by reflexivity. discriminate.
    + intros ->. apply map_eq. intros cat.
      now rewrite Hlook, lookup_empty.
  - exfalso. apply Exists_exists in H as (t & Ht & Hbad).
    rewrite Forall_forall in Hall. specialize (Hall t Ht). congruence.
Qed.

Lemma grouping_by_category_witness :
  exists groups : gmap string (list Timer),
    groupTimersByCategory on_object_prototype [egg; reading; pasta] = Some groups
    /\ groups !! "Cooking" = Some [egg; pasta]
    /\ groups !! "Study" = Some [reading]
    /\ groups !! "Sport" = None.
Proof.
  destruct (grouping_by_category on_object_prototype [egg; reading; pasta])
    as (groups & Hg & Hlook & _).
  - repeat constructor.
  - exists groups. split; [exact Hg|].
    rewrite !Hlook. repeat split.
Defined.

(** Grouping throws exactly when some timer's category is a name that an
    object inherits, such as "constructor" or "toString": the inherited
    value is found in place of a group and has no [push]. *)
Theorem grouping_fails_on_inherited_name
    (inherited : string -> bool) (timers : list Timer) :
  groupTimersByCategory inherited timers = None
  <-> exists t, t ∈ timers /\ inherited (category t) = true.
Proof.
  pose proof (groupTimersByCategory_spec inherited timers) as H.
  destruct (groupTimersByCategory inherited timers) as [groups|].
  - destruct H as [Hall _]. split; [discriminate|].
    intros (t & Ht & Hbad). rewrite Forall_forall in Hall.
    specialize (Hall t Ht). congruence.
  - split; [|reflexivity]. intros _. now apply Exists_exists in H.
Qed.

Lemma grouping_fails_on_inherited_name_witness :
  groupTimersByCategory on_object_prototype
    [egg; mkTimer "1700000000009" "Build" (Int 60) (Int 60) "toString"
            idle false None]
  = None.
Proof.
  apply grouping_fails_on_inherited_name.
  eexists. split; [right; left|reflexivity].
Defined.

Example grouping_with_category_constructor :
  groupTimersByCategory on_object_prototype
    [egg; pasta;
     {| id := "1700000000009"; name := "Build"; duration := Int 60;
        remainingTime := Int 60; category := "constructor"; status := idle;
        halfwayAlert := false; halfwayAlertTriggered := None |}]
  = None.
Proof. reflexivity. Qed.

Lemma group_timer_fmap (inherited : string -> bool) (f : Timer -> Timer)
    (groups : option (gmap string (list Timer))) (timer : Timer) :
  category (f timer) = category timer ->
  group_timer inherited (map_groups f groups) (f timer)
  = map_groups f (group_timer inherited groups timer).
Proof.
  intros Hcat. destruct groups as [g|]; [|reflexivity].
  unfold group_timer, map_groups. simpl. rewrite Hcat, lookup_fmap.
  destruct (g !! category timer) as [members|]; simpl.
  - f_equal. rewrite fmap_insert. f_equal.
    change (map f (members ++ [timer])) with (f <$> (members ++ [timer])).
    now rewrite fmap_app.
  - destruct (inherited (category timer)); [reflexivity|].
    simpl. now rewrite fmap_insert.
Qed.

(** Ticks and actions never move a timer to another group: grouping the
    list after a run gives the groups of the list before it, with every
    timer replaced by what the run made of it. *)
Theorem grouping_after_run
    (inherited : string -> bool) (ops : list Op) (timers : list Timer) :
  groupTimersByCategory inherited (run ops timers).1
  = map_groups (fun timer => (run_timer ops timer).1)
      (groupTimersByCategory inherited timers).
Proof.
  rewrite run_fst.
  induction timers as [|timer timers IH] using rev_ind.
  - unfold groupTimersByCategory, map_groups. simpl. now rewrite fmap_empty.
  - rewrite map_app. cbn [map].
    rewrite !groupTimersByCategory_snoc, IH.
    apply (group_timer_fmap inherited (fun timer => (run_timer ops timer).1)).
    now destruct (run_timer_fixed_fields ops timer) as (_ & _ & H & _).
Qed.

(** ** Showing the remaining time *)




Example formatTime_NaN : formatTime NaN = "NaN:NaN".
Proof. reflexivity. Qed.

(** ** Printing and parsing integers *)

Lemma parse_digits_acc (d : Decimal.uint) (acc : positive) :
  parse_digits (NilEmpty.string_of_uint d) (Some (Zpos acc))
  = Some (Zpos (Pos.of_uint_acc d acc)).
Proof.
  revert acc. induction d; intros acc; simpl; [reflexivity|..];
    unfold digit_of; simpl;
    match goal with
    | |- context [Z.of_nat (nat_of_ascii ?c)] =>
        let v := eval vm_compute in (Z.of_nat (nat_of_ascii c)) in
        change (Z.of_nat (nat_of_ascii c)) with v
    end;
    match goal with
    | |- parse_digits _ (Some ?v) = _ =>
        match goal with
        | |- _ = Some (Zpos (Pos.of_uint_acc _ ?a)) =>
            replace v with (Zpos a) by lia
        end
    end; apply IHd.
Qed.

Lemma parse_digits_zero (d : Decimal.uint) :
  parse_digits (NilEmpty.string_of_uint d) (Some 0)
  = Some (Z.of_N (Pos.of_uint d)).
Proof.
  induction d; simpl; [reflexivity|exact IHd|..];
    unfold digit_of; simpl; apply parse_digits_acc.
Qed.

Lemma parseInt_digit_first (c : ascii) (s : string) (k : Z) :
  digit_of c = Some k ->
  parseInt (String c s)
  = match parse_digits (String c s) None with
    | Some n => Int (1 * n)
    | None => NaN
    end.
Proof.
  destruct c as [[] [] [] [] [] [] [] []]; intros H;
    try discriminate H; reflexivity.
Qed.

Lemma parseInt_minus (s : string) :
  parseInt (String "-" s)
  = match parse_digits s None with
    | Some n => Int (-1 * n)
    | None => NaN
    end.
Proof. reflexivity. Qed.

Lemma parseInt_string_of_uint (d : Decimal.uint) :
  d <> Decimal.Nil ->
  parseInt (NilEmpty.string_of_uint d) = Int (Z.of_N (Pos.of_uint d))
  /\ parseInt (String "-" (NilEmpty.string_of_uint d))
     = Int (- Z.of_N (Pos.of_uint d)).
Proof.
  intros Hd.
  assert (Hnone : parse_digits (NilEmpty.string_of_uint d) None
                  = Some (Z.of_N (Pos.of_uint d))).
  { rewrite <- parse_digits_zero. destruct d; [contradiction|..]; reflexivity. }
  split.
  - assert (Hfirst : exists c s k,
               NilEmpty.string_of_uint d = String c s /\ digit_of c = Some k).
    { destruct d; [contradiction|..]; simpl; eauto. }
    destruct Hfirst as (c & s & k & Hs & Hk).
    rewrite Hs in *. rewrite (parseInt_digit_first c s k Hk), Hnone.
    f_equal; lia.
  - rewrite parseInt_minus, Hnone. f_equal; lia.
Qed.

(** Parsing the decimal rendering of an integer gives the integer back. *)
Lemma parseInt_num_toString (z : Z) : parseInt (num_toString (Int z)) = Int z.
Proof.
  unfold num_toString. destruct z as [|p|p].
  - reflexivity.
  - simpl. unfold NilZero.string_of_uint.
    pose proof (DecimalPos.Unsigned.to_uint_nonnil p) as Hnn.
    pose proof (DecimalPos.Unsigned.of_to p) as Hof.
    destruct (parseInt_string_of_uint (Pos.to_uint p) Hnn) as [H _].
    destruct (Pos.to_uint p); [contradiction|..]; rewrite H, Hof; reflexivity.
  - simpl. unfold NilZero.string_of_uint.
    pose proof (DecimalPos.Unsigned.to_uint_nonnil p) as Hnn.
    pose proof (DecimalPos.Unsigned.of_to p) as Hof.
    destruct (parseInt_string_of_uint (Pos.to_uint p) Hnn) as [_ H].
    destruct (Pos.to_uint p); [contradiction|..]; rewrite H, Hof; reflexivity.
Qed.




Lemma created_timer_id
    (now : Z) (newTimer : NewTimer.t) (timers : list Timer) (timer : Timer) :
  handleAddTimer now newTimer timers = (timers ++ [timer], []) ->
  id timer = num_toString (Int now).
Proof.
  unfold handleAddTimer.
  destruct (string_falsy (NewTimer.name newTimer)
            || string_falsy (NewTimer.duration newTimer)
            || string_falsy (NewTimer.category newTimer)); simpl.
  - discriminate.
  - intros [= H]. apply app_inj_tail in H as [_ <-]. reflexivity.
Qed.

(** Two accepted timers have the same id exactly when they were created at
    the same clock reading: nothing else tells their ids apart. *)
Theorem created_ids_follow_clock
    (now1 now2 : Z) (newTimer1 newTimer2 : NewTimer.t)
    (timers1 timers2 : list Timer) (timer1 timer2 : Timer) :
  handleAddTimer now1 newTimer1 timers1 = (timers1 ++ [timer1], []) ->
  handleAddTimer now2 newTimer2 timers2 = (timers2 ++ [timer2], []) ->
  (id timer1 = id timer2 <-> now1 = now2).
Proof.
  intros H1 H2.
  rewrite (created_timer_id _ _ _ _ H1), (created_timer_id _ _ _ _ H2).
  split; [|now intros ->].
  intros E. apply (f_equal parseInt) in E.
  rewrite !parseInt_num_toString in E. now injection E.
Qed.

Lemma created_ids_follow_clock_witness :
  id egg = id pasta <-> 1700000000001 = 1700000000002.
Proof.
  apply (created_ids_follow_clock 1700000000001 1700000000002
           (NewTimer.mk "Egg" "1" "Cooking" false)
           (NewTimer.mk "Pasta" "10" "Cooking" true)
           [] [egg] egg pasta);
    reflexivity.
Defined.

(** ** Timers do not interfere *)

(** What a run of ticks and actions makes of a timer, and how many
    completion events and halfway alerts it emits for it, does not depend
    on the other timers of the list: the list after the run is the list of
    the timers' own runs, and the events add up. *)
Theorem timers_are_independent
    (ops : list Op) (timers : list Timer) (i : nat) (timer : Timer) :
  timers !! i = Some timer ->
  (run ops timers).1 !! i = Some (run_timer ops timer).1
  /\ completions (run ops timers).2
     = sum_list (map (fun t => completions (run_timer ops t).2) timers)
  /\ halfway_alerts (run ops timers).2
     = sum_list (map (fun t => halfway_alerts (run_timer ops t).2) timers).
Proof.
  intros Hi. rewrite run_lookup, Hi.
  split; [reflexivity|].
  split; apply run_count_events.
Qed.

Lemma timers_are_independent_witness :
  (run [CategoryAction "Cooking" start; Tick; Tick] [egg; reading; pasta]).1
    !! 2%nat
  = Some (run_timer [CategoryAction "Cooking" start; Tick; Tick] pasta).1.
Proof.
  apply (timers_are_independent _ [egg; reading; pasta] 2 pasta eq_refl).
Defined.
